(** * Stock portfolio tracker: position accounting and performance

    A shallow embedding of [src/portfolio_manager.py] (with the tables of
    [src/database.py] it reads and writes) and the properties of the
    position accountant, the performance evaluator and the snapshot
    recorder.

    Modelling conventions.

    - Quantities (shares, prices, costs) are Python floats in the source.
      They are modelled as exact rationals [Qc], the "real" quantities of
      the data model, for the properties that do not depend on rounding:
      which rows and messages come out, what is stored, what is read. The
      position accountant is embedded a second time in the module [Double],
      on binary64 floats, for the properties that do: there every operation
      is the rounded one of the machine.
    - Strings are ASCII strings; [str.lower] and [str.upper] act on the
      ASCII letters.
    - A [datetime] is an integer timestamp.
    - The database behind the SQLAlchemy engine is a record of three tables,
      each a list of rows in insertion order. A session that commits returns
      the new store; a function that returns before [session.commit()]
      returns the store it was given. Failures of the database itself (the
      [except Exception] arms) are outside the model.
    - Console output ([print]) is a list of messages returned next to the
      result.
    - [stock_fetcher.get_current_price] is a network call; it is a parameter
      [get_current_price : string -> option Qc]. *)

From Stdlib Require Import QArith Qcanon Permutation Ascii String PrimFloat.
From stdpp Require Import base numbers option list strings sorting.

Local Open Scope Z_scope.
Local Open Scope string_scope.
Local Open Scope list_scope.

(** ** Strings *)

Definition ascii_lower (c : ascii) : ascii :=
  let n := N_of_ascii c in
  if ((65 <=? n) && (n <=? 90))%N then ascii_of_N (n + 32) else c.

Definition ascii_upper (c : ascii) : ascii :=
  let n := N_of_ascii c in
  if ((97 <=? n) && (n <=? 122))%N then ascii_of_N (n - 32) else c.

Fixpoint map_string (f : ascii → ascii) (s : string) : string :=
  match s with
  | EmptyString => EmptyString
  | String c s' => String (f c) (map_string f s')
  end.

(** [s.lower()] and [s.upper()] *)
Definition lower : string → string := map_string ascii_lower.
Definition upper : string → string := map_string ascii_upper.

(** ** The tables of [database.py] *)

Record Portfolio := mkPortfolio {
  portfolio_key : Z;             (* Portfolio.id *)
  portfolio_name : string;
  created_at : Z
}.

Record Transaction := mkTransaction {
  transaction_key : Z;           (* Transaction.id *)
  portfolio_id : Z;
  ticker : string;
  transaction_type : string;     (* 'buy' or 'sell' *)
  shares : Qc;
  price_per_share : Qc;
  transaction_date : Z;
  notes : string
}.

Record PortfolioSnapshot := mkPortfolioSnapshot {
  snapshot_key : Z;              (* PortfolioSnapshot.id *)
  snapshot_portfolio_id : Z;
  total_value : Qc;
  snapshot_date : Z
}.

Record Store := mkStore {
  portfolios : list Portfolio;
  transactions : list Transaction;
  snapshots : list PortfolioSnapshot
}.

Definition empty_store : Store := mkStore [] [] [].

(** The key an autoincrement primary column gives the next row: one more
    than the largest key in the table. *)
Definition next_key (keys : list Z) : Z := 1 + foldr Z.max 0 keys.

(** [session.query(Portfolio).filter_by(id=portfolio_id).first()] *)
Definition query_portfolio (st : Store) (pid : Z) : option Portfolio :=
  head (filter (λ p, portfolio_key p = pid) (portfolios st)).

(** Insertion into a list of transactions already ordered by date, after
    the rows of the same date. *)
Fixpoint insert_by_date (t : Transaction) (l : list Transaction)
  : list Transaction :=
  match l with
  | [] => [t]
  | u :: l' =>
      if decide (transaction_date t < transaction_date u)
      then t :: u :: l'
      else u :: insert_by_date t l'
  end.

(** [ORDER BY transaction_date]: ascending, rows of one date in storage
    order. *)
Definition order_by_date (l : list Transaction) : list Transaction :=
  foldr insert_by_date [] (reverse l).

(** [session.query(Transaction).filter_by(portfolio_id=portfolio_id)
      .order_by(Transaction.transaction_date).all()] *)
Definition query_transactions (st : Store) (pid : Z) : list Transaction :=
  order_by_date (filter (λ t, portfolio_id t = pid) (transactions st)).

(** ** Console output *)

Inductive Message :=
  | PortfolioCreated (name : string) (key : Z)
  | ErrorTransactionType (transaction_type : string)
  | ErrorShares (shares : Qc)
  | ErrorPrice (price_per_share : Qc)
  | ErrorPortfolioNotFound (pid : Z)
  | TransactionAdded (transaction_type : string) (shares : Qc)
      (ticker : string) (price_per_share : Qc)
  | NoTransactionsFound (pid : Z)
  | WarningNoSharesHeld (shares : Qc) (ticker : string)
  | NoHoldingsFound (pid : Z)
  | WarningNoPrice (ticker : string)
  | ErrorNoPerformance (pid : Z)
  | SnapshotSaved (total_value : Qc) (snapshot_date : Z).

(** A computation that prints: its result and the messages, oldest first. *)
Definition Out (A : Type) : Type := A * list Message.

Definition print (m : Message) : Out unit := (tt, [m]).

#[global] Instance out_ret : MRet Out := λ A a, (a, []).

#[global] Instance out_bind : MBind Out := λ A B k c,
  let r := k c.1 in (r.1, c.2 ++ r.2).

(** ** [create_portfolio] and [add_transaction] *)

Definition create_portfolio (now : Z) (name : string) (st : Store)
  : Out (option Z * Store) :=
  let key := next_key (portfolio_key <$> portfolios st) in
  let portfolio := mkPortfolio key name now in
  let st' := mkStore (portfolios st ++ [portfolio]) (transactions st)
                     (snapshots st) in
  print (PortfolioCreated name key) ;;
  mret (Some key, st').

Definition add_transaction (pid : Z) (ticker transaction_type : string)
    (shares price_per_share : Qc) (transaction_date : Z) (notes : string)
    (st : Store) : Out (bool * Store) :=
  (* Validate transaction type *)
  if decide (lower transaction_type ∉ ["buy"; "sell"]) then
    print (ErrorTransactionType transaction_type) ;;
    mret (false, st)
  (* Validate shares and price *)
  else if decide (shares ≤ 0)%Qc then
    print (ErrorShares shares) ;;
    mret (false, st)
  else if decide (price_per_share ≤ 0)%Qc then
    print (ErrorPrice price_per_share) ;;
    mret (false, st)
  else
    (* Verify portfolio exists *)
    match query_portfolio st pid with
    | None =>
        print (ErrorPortfolioNotFound pid) ;;
        mret (false, st)
    | Some _ =>
        let transaction :=
          mkTransaction (next_key (transaction_key <$> transactions st))
            pid (upper ticker) (lower transaction_type) shares
            price_per_share transaction_date notes in
        let st' := mkStore (portfolios st) (transactions st ++ [transaction])
                           (snapshots st) in
        print (TransactionAdded (upper transaction_type) shares
                 (upper ticker) price_per_share) ;;
        mret (true, st')
    end.

(** ** The position accountant: [get_portfolio_holdings] *)

(** The value kept per ticker in the [holdings] dict. *)
Record Position := mkPosition {
  total_shares : Qc;
  total_cost : Qc
}.

(** The [holdings] dict: its items in insertion order, one per key. *)
Definition Holdings : Type := list (string * Position).

(** [holdings.get(ticker)] *)
Fixpoint dict_get (h : Holdings) (k : string) : option Position :=
  match h with
  | [] => None
  | (k', v) :: h' => if decide (k' = k) then Some v else dict_get h' k
  end.

(** [holdings[ticker] = v]: an existing key keeps its place, a new key goes
    last. *)
Fixpoint dict_set (h : Holdings) (k : string) (v : Position) : Holdings :=
  match h with
  | [] => [(k, v)]
  | (k', v') :: h' =>
      if decide (k' = k) then (k', v) :: h' else (k', v') :: dict_set h' k v
  end.

Definition new_position : Position := mkPosition 0 0.

(** [if ticker not in holdings: holdings[ticker] = {...: 0, ...: 0}] *)
Definition ensure_position (h : Holdings) (k : string) : Holdings :=
  match dict_get h k with
  | Some _ => h
  | None => dict_set h k new_position
  end.

(** [holdings[ticker]], read after [ensure_position] so that the key is
    there; an absent key stands for the accumulator not yet started. *)
Definition position_of (h : Holdings) (k : string) : Position :=
  default new_position (dict_get h k).

(** The body of [for txn in transactions]. *)
Definition process_transaction (h : Holdings) (txn : Transaction)
  : Out Holdings :=
  let h := ensure_position h (ticker txn) in
  let p := position_of h (ticker txn) in
  if decide (transaction_type txn = "buy") then
    mret (dict_set h (ticker txn)
      (mkPosition (total_shares p + shares txn)
                  (total_cost p + shares txn * price_per_share txn)))
  else if decide (transaction_type txn = "sell") then
    (* average cost *)
    if decide (0 < total_shares p)%Qc then
      let avg_cost := (total_cost p / total_shares p)%Qc in
      mret (dict_set h (ticker txn)
        (mkPosition (total_shares p - shares txn)
                    (total_cost p - shares txn * avg_cost)))
    else
      print (WarningNoSharesHeld (shares txn) (ticker txn)) ;;
      mret h
  else mret h.

Fixpoint process_transactions (h : Holdings) (txns : list Transaction)
  : Out Holdings :=
  match txns with
  | [] => mret h
  | txn :: rest =>
      h' ← process_transaction h txn;
      process_transactions h' rest
  end.

(** A pandas data frame: its column labels and its rows. *)
Record DataFrame (R : Type) := mkDataFrame {
  columns : list string;
  rows : list R
}.
Arguments mkDataFrame {R} _ _.
Arguments columns {R} _.
Arguments rows {R} _.

(** [pd.DataFrame(data)] for a list of dicts that all have the keys [keys]:
    the columns are the keys of the records, so there are none when the list
    is empty. *)
Definition from_records {R} (keys : list string) (data : list R)
  : DataFrame R :=
  match data with
  | [] => mkDataFrame [] []
  | _ :: _ => mkDataFrame keys data
  end.

(** [df.empty]: some axis has length 0. *)
Definition empty {R} (df : DataFrame R) : bool :=
  match columns df, rows df with
  | _ :: _, _ :: _ => false
  | _, _ => true
  end.

Record HoldingRow := mkHoldingRow {
  row_ticker : string;
  row_total_shares : Qc;
  row_avg_cost_basis : Qc;
  row_total_cost : Qc
}.

Definition holdings_columns : list string :=
  ["ticker"; "total_shares"; "avg_cost_basis"; "total_cost"].

(** The body of [for ticker, values in holdings.items()]: the record
    appended to [data], if any. *)
Definition holding_record (item : string * Position) : option HoldingRow :=
  let '(ticker, values) := item in
  if decide (0 < total_shares values)%Qc then
    let avg_cost_basis :=
      if decide (0 < total_shares values)%Qc
      then (total_cost values / total_shares values)%Qc else 0%Qc in
    Some (mkHoldingRow ticker (total_shares values) avg_cost_basis
            (total_cost values))
  else None.

Definition holdings_frame (h : Holdings) : DataFrame HoldingRow :=
  from_records holdings_columns (omap holding_record h).

Definition get_portfolio_holdings (st : Store) (pid : Z)
  : Out (option (DataFrame HoldingRow)) :=
  (* Verify portfolio exists *)
  match query_portfolio st pid with
  | None =>
      print (ErrorPortfolioNotFound pid) ;;
      mret None
  | Some _ =>
      match query_transactions st pid with
      | [] =>
          print (NoTransactionsFound pid) ;;
          mret (Some (mkDataFrame holdings_columns []))
      | txn :: rest =>
          holdings ← process_transactions [] (txn :: rest);
          mret (Some (holdings_frame holdings))
      end
  end.

(** ** The performance evaluator and the snapshot recorder *)

Record PerformanceRow := mkPerformanceRow {
  perf_ticker : string;
  perf_shares : Qc;
  perf_avg_cost_basis : Qc;
  perf_current_price : Qc;
  perf_total_cost : Qc;
  perf_current_value : Qc;
  perf_gain_loss_dollar : Qc;
  perf_gain_loss_percent : Qc
}.

Definition performance_columns : list string :=
  ["ticker"; "shares"; "avg_cost_basis"; "current_price"; "total_cost";
   "current_value"; "gain_loss_dollar"; "gain_loss_percent"].

(** The dict returned by [get_portfolio_performance]. *)
Record Performance := mkPerformance {
  positions : DataFrame PerformanceRow;
  portfolio_total_cost : Qc;             (* 'total_cost' *)
  total_current_value : Qc;
  total_gain_loss_dollar : Qc;
  total_gain_loss_percent : Qc
}.

(** The variables of the loop over [holdings_df.iterrows()]. *)
Record Running := mkRunning {
  performance_data : list PerformanceRow;
  running_total_cost : Qc;               (* total_cost *)
  running_current_value : Qc             (* total_current_value *)
}.

Definition hundred : Qc := Qc_of_Z 100.

Section Performance.

(** [stock_fetcher.get_current_price]: the price, or [None] when it cannot
    be fetched. *)
Variable get_current_price : string → option Qc.

(** The body of [for _, row in holdings_df.iterrows()]. *)
Definition evaluate_row (acc : Running) (row : HoldingRow) : Out Running :=
  let ticker := row_ticker row in
  let shares := row_total_shares row in
  let cost_basis := row_avg_cost_basis row in
  let position_cost := row_total_cost row in
  match get_current_price ticker with
  | None =>
      print (WarningNoPrice ticker);;
      mret acc                                           (* continue *)
  | Some current_price =>
      let current_value := (shares * current_price)%Qc in
      let gain_loss_dollar := (current_value - position_cost)%Qc in
      let gain_loss_percent :=
        if decide (0 < position_cost)%Qc
        then (gain_loss_dollar / position_cost * hundred)%Qc else 0%Qc in
      mret (mkRunning
        (performance_data acc ++
           [mkPerformanceRow ticker shares cost_basis current_price
              position_cost current_value gain_loss_dollar
              gain_loss_percent])
        (running_total_cost acc + position_cost)
        (running_current_value acc + current_value))
  end.

Fixpoint evaluate_rows (acc : Running) (l : list HoldingRow) : Out Running :=
  match l with
  | [] => mret acc
  | row :: rest =>
      acc' ← evaluate_row acc row;
      evaluate_rows acc' rest
  end.

(** The result when there are no holdings. *)
Definition no_performance : Performance :=
  mkPerformance (mkDataFrame [] []) 0 0 0 0.

Definition get_portfolio_performance (st : Store) (pid : Z)
  : Out (option Performance) :=
  holdings_df ← get_portfolio_holdings st pid;
  match holdings_df with
  | None =>
      print (NoHoldingsFound pid);;
      mret (Some no_performance)
  | Some holdings_df =>
      if empty holdings_df then
        print (NoHoldingsFound pid);;
        mret (Some no_performance)
      else
        acc ← evaluate_rows (mkRunning [] 0 0) (rows holdings_df);
        let total_cost := running_total_cost acc in
        let total_current_value := running_current_value acc in
        let performance_df :=
          from_records performance_columns (performance_data acc) in
        let total_gain_loss_dollar := (total_current_value - total_cost)%Qc in
        let total_gain_loss_percent :=
          if decide (0 < total_cost)%Qc
          then (total_gain_loss_dollar / total_cost * hundred)%Qc
          else 0%Qc in
        mret (Some (mkPerformance performance_df total_cost
                      total_current_value total_gain_loss_dollar
                      total_gain_loss_percent))
  end.

(** [now] is the value of [datetime.utcnow()]. *)
Definition save_portfolio_snapshot (now : Z) (st : Store) (pid : Z)
  : Out (bool * Store) :=
  performance ← get_portfolio_performance st pid;
  match performance with
  | None =>
      print (ErrorNoPerformance pid);;
      mret (false, st)
  | Some performance =>
      let total_value := total_current_value performance in
      (* Verify portfolio exists *)
      match query_portfolio st pid with
      | None =>
          print (ErrorPortfolioNotFound pid);;
          mret (false, st)
      | Some _ =>
          let snapshot :=
            mkPortfolioSnapshot (next_key (snapshot_key <$> snapshots st))
              pid total_value now in
          let st' := mkStore (portfolios st) (transactions st)
                             (snapshots st ++ [snapshot]) in
          print (SnapshotSaved total_value now);;
          mret (true, st')
      end
  end.

End Performance.

(** ** The dashboard: [app.py] *)

(** Insertion into a list of snapshots already ordered by date, after the
    snapshots of the same date. *)
Fixpoint insert_snapshot (s : PortfolioSnapshot) (l : list PortfolioSnapshot)
  : list PortfolioSnapshot :=
  match l with
  | [] => [s]
  | u :: l' =>
      if decide (snapshot_date s < snapshot_date u)
      then s :: u :: l'
      else u :: insert_snapshot s l'
  end.

(** The snapshots charted in the second tab:
    [session.query(PortfolioSnapshot).filter_by(portfolio_id=...)
       .order_by(PortfolioSnapshot.snapshot_date).all()] *)
Definition query_snapshots (st : Store) (pid : Z) : list PortfolioSnapshot :=
  foldr insert_snapshot []
    (reverse (filter (λ s, snapshot_portfolio_id s = pid) (snapshots st))).

(** * Vocabulary of the properties *)

(** Some portfolio of the store has this id. *)
Definition portfolio_exists (st : Store) (pid : Z) : Prop :=
  pid ∈ portfolio_key <$> portfolios st.

(** What the loop body does to the accumulator of the transaction's own
    ticker: the arithmetic of [process_transaction], on one position. *)
Definition update_position (p : Position) (txn : Transaction) : Position :=
  if decide (transaction_type txn = "buy") then
    mkPosition (total_shares p + shares txn)
               (total_cost p + shares txn * price_per_share txn)
  else if decide (transaction_type txn = "sell") then
    if decide (0 < total_shares p)%Qc then
      mkPosition (total_shares p - shares txn)
                 (total_cost p - shares txn * (total_cost p / total_shares p))
    else p
  else p.

(** The accumulator at the end of the loop of [get_portfolio_holdings]. *)
Definition final_holdings (st : Store) (pid : Z) : Holdings :=
  (process_transactions [] (query_transactions st pid)).1.

(** The sum of a list of quantities. *)
Definition sum_Qc (l : list Qc) : Qc := foldr Qcplus 0%Qc l.

Section Priced.

Variable get_current_price : string → option Qc.

(** The rows whose price lookup succeeds. *)
Definition priced (l : list HoldingRow) : list HoldingRow :=
  filter (λ row, is_Some (get_current_price (row_ticker row))) l.

(** A record of the performance frame stands for a row of the holdings
    frame, at the price found for its ticker. *)
Definition evaluates (rec : PerformanceRow) (row : HoldingRow) : Prop :=
  perf_ticker rec = row_ticker row ∧
  perf_shares rec = row_total_shares row ∧
  perf_avg_cost_basis rec = row_avg_cost_basis row ∧
  perf_total_cost rec = row_total_cost row ∧
  get_current_price (row_ticker row) = Some (perf_current_price rec) ∧
  perf_current_value rec = (row_total_shares row * perf_current_price rec)%Qc ∧
  perf_gain_loss_dollar rec
    = (perf_current_value rec - row_total_cost row)%Qc.

(** shares times current price, for a row that has a price *)
Definition market_value (row : HoldingRow) : Qc :=
  (row_total_shares row * default 0%Qc (get_current_price (row_ticker row)))%Qc.

End Priced.

(** ** Sample data *)

Definition qc (n : Z) : Qc := Qc_of_Z n.

(** The default of the [notes] argument: the empty string. *)
Definition no_notes : string := EmptyString.

(** A store with portfolio 1, empty. *)
Definition sample_empty : Store :=
  (create_portfolio 0 "Test Portfolio" empty_store).1.2.

(** Portfolio 1 with: buy 10 AAPL at 150, buy 5 AAPL at 160, buy 8 MSFT at
    350 (dated between the two), sell 4 AAPL. *)
Definition sample_store : Store :=
  let add ticker kind q p date st :=
    (add_transaction 1 ticker kind (qc q) (qc p) date no_notes st).1.2 in
  add "aapl" "sell" 4 320 9
    (add "msft" "buy" 8 350 6
       (add "AAPL" "buy" 5 160 7
          (add "aapl" "Buy" 10 150 5 sample_empty))).

(** A price source that knows AAPL only. *)
Definition sample_price (t : string) : option Qc :=
  if decide (t = "AAPL") then Some (qc 200) else None.

(** Buy 5 TSLA at 200, then sell 5 TSLA at 250. *)
Definition liquidated_store : Store :=
  let add ticker kind q p date st :=
    (add_transaction 1 ticker kind (qc q) (qc p) date no_notes st).1.2 in
  add "TSLA" "sell" 5 250 20 (add "TSLA" "buy" 5 200 10 sample_empty).

(** The holdings frame of the sample: AAPL and MSFT. *)
Definition sample_frame : DataFrame HoldingRow :=
  holdings_frame (final_holdings sample_store 1).

(** Not later than, by date. *)
Definition by_date (a b : Transaction) : Prop :=
  (transaction_date a ≤ transaction_date b)%Z.

(** ** Well-formed stores *)

(** A row of the transactions table as [add_transaction] writes it. *)
Definition valid_transaction (st : Store) (t : Transaction) : Prop :=
  transaction_type t ∈ ["buy"; "sell"] ∧
  (0 < shares t)%Qc ∧
  (0 < price_per_share t)%Qc ∧
  upper (ticker t) = ticker t ∧
  portfolio_exists st (portfolio_id t).

(** Keys are not shared, transactions are as [add_transaction] writes them,
    and transactions and snapshots belong to portfolios of the store. *)
Definition valid_store (st : Store) : Prop :=
  NoDup (portfolio_key <$> portfolios st) ∧
  NoDup (transaction_key <$> transactions st) ∧
  NoDup (snapshot_key <$> snapshots st) ∧
  Forall (valid_transaction st) (transactions st) ∧
  Forall (λ s, portfolio_exists st (snapshot_portfolio_id s)) (snapshots st).

(** The numbers added up as the loops of the code do: from 0, in the order
    of the list. *)
Definition running_sum (l : list Qc) : Qc := foldl Qcplus 0%Qc l.

(** What the loop reads of a transaction once its ticker is known: the
    type, the shares and the price. *)
Definition trade (txn : Transaction) : string * Qc * Qc :=
  (transaction_type txn, shares txn, price_per_share txn).

(** What the user enters for a transaction of a portfolio, apart from the
    notes: the key is given by the store. *)
Definition entry (txn : Transaction) : string * string * Qc * Qc * Z :=
  (ticker txn, transaction_type txn, shares txn, price_per_share txn,
   transaction_date txn).

(** The transaction with another price. *)
Definition with_price (txn : Transaction) (price : Qc) : Transaction :=
  mkTransaction (transaction_key txn) (portfolio_id txn) (ticker txn)
    (transaction_type txn) (shares txn) price (transaction_date txn)
    (notes txn).

(** The sells get the price [f] gives them. *)
Definition reprice_sells (f : Transaction → Qc) (txn : Transaction)
  : Transaction :=
  if decide (transaction_type txn = "sell") then with_price txn (f txn)
  else txn.

(** The sample store with a second portfolio: buy 3 GOOG at 100, and the
    same three transactions of AAPL as the first portfolio, at other
    dates. *)
Definition sample_two : Store :=
  let add ticker kind q p date st :=
    (add_transaction 2 ticker kind (qc q) (qc p) date no_notes st).1.2 in
  add "AAPL" "sell" 4 320 8
    (add "aapl" "buy" 5 160 4
       (add "AAPL" "buy" 10 150 3
          (add "GOOG" "buy" 3 100 2
             (create_portfolio 1 "Second" sample_store).1.2))).

(** Buy 10 AAPL at 150 on day 5, buy 5 at 160 on day 7, sell 4 on day 9,
    entered in this order. *)
Definition entered_forward : Store :=
  let add ticker kind q p date st :=
    (add_transaction 1 ticker kind (qc q) (qc p) date no_notes st).1.2 in
  add "AAPL" "sell" 4 320 9
    (add "AAPL" "buy" 5 160 7
       (add "AAPL" "buy" 10 150 5 sample_empty)).

(** The same three transactions, entered last first. *)
Definition entered_backward : Store :=
  let add ticker kind q p date st :=
    (add_transaction 1 ticker kind (qc q) (qc p) date no_notes st).1.2 in
  add "AAPL" "buy" 10 150 5
    (add "AAPL" "buy" 5 160 7
       (add "AAPL" "sell" 4 320 9 sample_empty)).

(** The sample store after two snapshots of the portfolio, at times 10 and
    20. *)
Definition sample_snapshots : Store :=
  (save_portfolio_snapshot sample_price 20
     (save_portfolio_snapshot sample_price 10 sample_store 1).1.2 1).1.2.

(** ** The position accountant on doubles

    The same [get_portfolio_holdings], with shares, prices and costs as the
    binary64 floats the source computes on: every [+], [-], [*] and [/] is
    the rounded operation of the machine and every comparison the one of
    IEEE 754. It is the embedding to use where a property depends on
    rounding. The tables, the queries and the messages are those the
    function reads and prints. *)

Module Double.

Local Open Scope float_scope.

Record Transaction := mkTransaction {
  transaction_key : Z;           (* Transaction.id *)
  portfolio_id : Z;
  ticker : string;
  transaction_type : string;     (* 'buy' or 'sell' *)
  shares : float;
  price_per_share : float;
  transaction_date : Z;
  notes : string
}.

(** The two tables that [get_portfolio_holdings] reads. *)
Record Store := mkStore {
  portfolios : list Portfolio;
  transactions : list Transaction
}.

(** [session.query(Portfolio).filter_by(id=portfolio_id).first()] *)
Definition query_portfolio (st : Store) (pid : Z) : option Portfolio :=
  head (filter (λ p, portfolio_key p = pid) (portfolios st)).

Fixpoint insert_by_date (t : Transaction) (l : list Transaction)
  : list Transaction :=
  match l with
  | [] => [t]
  | u :: l' =>
      if decide (transaction_date t < transaction_date u)%Z
      then t :: u :: l'
      else u :: insert_by_date t l'
  end.

(** [ORDER BY transaction_date]: ascending, rows of one date in storage
    order. *)
Definition order_by_date (l : list Transaction) : list Transaction :=
  foldr insert_by_date [] (reverse l).

Definition query_transactions (st : Store) (pid : Z) : list Transaction :=
  order_by_date (filter (λ t, portfolio_id t = pid) (transactions st)).

(** The messages of [get_portfolio_holdings]. *)
Inductive Message :=
  | ErrorPortfolioNotFound (pid : Z)
  | NoTransactionsFound (pid : Z)
  | WarningNoSharesHeld (shares : float) (ticker : string).

Definition Out (A : Type) : Type := A * list Message.

Definition print (m : Message) : Out unit := (tt, [m]).

#[global] Instance out_ret : MRet Out := λ A a, (a, []).

#[global] Instance out_bind : MBind Out := λ A B k c,
  let r := k c.1 in (r.1, c.2 ++ r.2).

Record Position := mkPosition {
  total_shares : float;
  total_cost : float
}.

Definition Holdings : Type := list (string * Position).

Fixpoint dict_get (h : Holdings) (k : string) : option Position :=
  match h with
  | [] => None
  | (k', v) :: h' => if decide (k' = k) then Some v else dict_get h' k
  end.

Fixpoint dict_set (h : Holdings) (k : string) (v : Position) : Holdings :=
  match h with
  | [] => [(k, v)]
  | (k', v') :: h' =>
      if decide (k' = k) then (k', v) :: h' else (k', v') :: dict_set h' k v
  end.

(** [{'total_shares': 0, 'total_cost': 0}]: the integer 0, which the first
    [+=] of a float turns into the float of the same value. *)
Definition new_position : Position := mkPosition 0 0.

Definition ensure_position (h : Holdings) (k : string) : Holdings :=
  match dict_get h k with
  | Some _ => h
  | None => dict_set h k new_position
  end.

Definition position_of (h : Holdings) (k : string) : Position :=
  default new_position (dict_get h k).

(** The body of [for txn in transactions]. *)
Definition process_transaction (h : Holdings) (txn : Transaction)
  : Out Holdings :=
  let h := ensure_position h (ticker txn) in
  let p := position_of h (ticker txn) in
  if decide (transaction_type txn = "buy") then
    mret (dict_set h (ticker txn)
      (mkPosition (total_shares p + shares txn)
                  (total_cost p + shares txn * price_per_share txn)))
  else if decide (transaction_type txn = "sell") then
    if 0 <? total_shares p then
      let avg_cost := total_cost p / total_shares p in
      mret (dict_set h (ticker txn)
        (mkPosition (total_shares p - shares txn)
                    (total_cost p - shares txn * avg_cost)))
    else
      print (WarningNoSharesHeld (shares txn) (ticker txn));;
      mret h
  else mret h.

Fixpoint process_transactions (h : Holdings) (txns : list Transaction)
  : Out Holdings :=
  match txns with
  | [] => mret h
  | txn :: rest =>
      h' ← process_transaction h txn;
      process_transactions h' rest
  end.

Record HoldingRow := mkHoldingRow {
  row_ticker : string;
  row_total_shares : float;
  row_avg_cost_basis : float;
  row_total_cost : float
}.

(** The body of [for ticker, values in holdings.items()]. *)
Definition holding_record (item : string * Position) : option HoldingRow :=
  let '(ticker, values) := item in
  if 0 <? total_shares values then
    let avg_cost_basis :=
      if 0 <? total_shares values
      then total_cost values / total_shares values else 0 in
    Some (mkHoldingRow ticker (total_shares values) avg_cost_basis
            (total_cost values))
  else None.

Definition holdings_frame (h : Holdings) : DataFrame HoldingRow :=
  from_records holdings_columns (omap holding_record h).

Definition get_portfolio_holdings (st : Store) (pid : Z)
  : Out (option (DataFrame HoldingRow)) :=
  (* Verify portfolio exists *)
  match query_portfolio st pid with
  | None =>
      print (ErrorPortfolioNotFound pid);;
      mret None
  | Some _ =>
      match query_transactions st pid with
      | [] =>
          print (NoTransactionsFound pid);;
          mret (Some (mkDataFrame holdings_columns []))
      | txn :: rest =>
          holdings ← process_transactions [] (txn :: rest);
          mret (Some (holdings_frame holdings))
      end
  end.

(** *** Vocabulary *)

Definition portfolio_exists (st : Store) (pid : Z) : Prop :=
  pid ∈ portfolio_key <$> portfolios st.

(** What the loop body does to the accumulator of the transaction's own
    ticker. *)
Definition update_position (p : Position) (txn : Transaction) : Position :=
  if decide (transaction_type txn = "buy") then
    mkPosition (total_shares p + shares txn)
               (total_cost p + shares txn * price_per_share txn)
  else if decide (transaction_type txn = "sell") then
    if 0 <? total_shares p then
      mkPosition (total_shares p - shares txn)
                 (total_cost p - shares txn * (total_cost p / total_shares p))
    else p
  else p.

(** The accumulator at the end of the loop. *)
Definition final_holdings (st : Store) (pid : Z) : Holdings :=
  (process_transactions [] (query_transactions st pid)).1.

(** The quantities added up as the loop does, from 0 and in the order
    read. *)
Definition running_shares (l : list Transaction) : float :=
  foldl (λ a txn, a + shares txn) 0 l.

(** The costs [shares * price_per_share] added up as the loop does. *)
Definition running_cost (l : list Transaction) : float :=
  foldl (λ a txn, a + shares txn * price_per_share txn) 0 l.

(** *** Sample data *)

(** Portfolio 1: buy 10 AAPL at 150, buy 8 MSFT at 350, buy 5 AAPL at
    160. *)
Definition sample_buys : Store :=
  mkStore [mkPortfolio 1 "Test Portfolio" 0]
    [mkTransaction 1 1 "AAPL" "buy" 10 150 5 no_notes;
     mkTransaction 2 1 "AAPL" "buy" 5 160 7 no_notes;
     mkTransaction 3 1 "MSFT" "buy" 8 350 6 no_notes].

(** The accumulator after buy 10 AAPL at 150 and buy 5 AAPL at 160: 15
    shares, cost 2300. *)
Definition sample_holdings : Holdings :=
  (process_transactions []
     [mkTransaction 1 1 "AAPL" "buy" 10 150 5 no_notes;
      mkTransaction 2 1 "AAPL" "buy" 5 160 7 no_notes]).1.

(** Sell 4 AAPL. *)
Definition sample_sell : Transaction :=
  mkTransaction 4 1 "AAPL" "sell" 4 320 9 no_notes.

End Double.

(** * Properties *)

(** ** Sample data *)

Example sample_order :
  ticker <$> query_transactions sample_store 1
  = ["AAPL"; "MSFT"; "AAPL"; "AAPL"].
Proof. reflexivity. Qed.

Example sample_holdings_tickers :
  (λ df, row_ticker <$> rows df) <$> (get_portfolio_holdings sample_store 1).1
  = Some ["AAPL"; "MSFT"].
Proof. vm_compute. reflexivity. Qed.

(** Buy 10 at 150, buy 5 at 160, sell 4: 11 shares are left at the average
    cost 460/3 of before the sell, total cost 5060/3. *)
Example sample_holdings_rows :
  (λ df, (λ r, (row_ticker r, this (row_total_shares r),
                this (row_avg_cost_basis r), this (row_total_cost r)))
           <$> rows df) <$> (get_portfolio_holdings sample_store 1).1
  = Some [("AAPL", (11 # 1)%Q, (460 # 3)%Q, (5060 # 3)%Q);
          ("MSFT", (8 # 1)%Q, (350 # 1)%Q, (2800 # 1)%Q)].
Proof. vm_compute. reflexivity. Qed.

(** ** The store *)

Lemma query_portfolio_None st pid :
  query_portfolio st pid = None ↔ ¬ portfolio_exists st pid.
Proof.
  unfold query_portfolio, portfolio_exists.
  induction (portfolios st) as [|p l IH]; simpl.
  - split; [intros _ H; inversion H | done].
  - rewrite filter_cons. case_decide as Hp; simpl.
    + split; [done | intros H; destruct H; subst; left].
    + rewrite IH. split.
      * intros Hn Hin. apply elem_of_cons in Hin as [->|Hin]; auto.
      * intros Hn Hin. apply Hn. by right.
Qed.

Lemma query_portfolio_Some st pid :
  portfolio_exists st pid → ∃ p, query_portfolio st pid = Some p.
Proof.
  intros He. destruct (query_portfolio st pid) as [p|] eqn:Hq; [eauto|].
  by apply query_portfolio_None in Hq.
Qed.

Lemma insert_by_date_perm t l : insert_by_date t l ≡ₚ t :: l.
Proof.
  induction l as [|u l IH]; simpl; [done|].
  case_decide; [done|]. rewrite IH. apply Permutation_swap.
Qed.

Lemma order_by_date_perm l : order_by_date l ≡ₚ l.
Proof.
  unfold order_by_date. rewrite <- (reverse_Permutation l) at 2.
  induction (reverse l) as [|t r IH]; simpl; [done|].
  by rewrite insert_by_date_perm, IH.
Qed.

Lemma query_transactions_elem st pid t :
  t ∈ query_transactions st pid ↔ t ∈ transactions st ∧ portfolio_id t = pid.
Proof.
  unfold query_transactions. rewrite order_by_date_perm.
  rewrite list_elem_of_filter. tauto.
Qed.

Lemma query_transactions_nil st pid :
  query_transactions st pid = [] ↔
  ∀ t, t ∈ transactions st → portfolio_id t ≠ pid.
Proof.
  split.
  - intros Hq t Hin Hp.
    assert (t ∈ query_transactions st pid) as Hi
      by (apply query_transactions_elem; done).
    rewrite Hq in Hi. inversion Hi.
  - intros Hn. destruct (query_transactions st pid) as [|t l] eqn:Hq; [done|].
    assert (t ∈ query_transactions st pid) as Hi by (rewrite Hq; left).
    apply query_transactions_elem in Hi as [Hi Hp]. by destruct (Hn t Hi).
Qed.

(** ** The [holdings] dict *)

Lemma dict_get_set_eq h k v : dict_get (dict_set h k v) k = Some v.
Proof.
  induction h as [|[k' v'] h IH]; simpl.
  - by rewrite decide_True.
  - case_decide as Hk; simpl; [by rewrite decide_True|].
    by rewrite decide_False.
Qed.

Lemma dict_get_set_ne h k k' v :
  k ≠ k' → dict_get (dict_set h k v) k' = dict_get h k'.
Proof.
  intros Hne. induction h as [|[k0 v0] h IH]; simpl.
  - by rewrite decide_False.
  - case_decide as Hk; simpl.
    + subst k0. by rewrite !decide_False.
    + case_decide; [done | apply IH].
Qed.

Lemma dict_set_absent h k v :
  dict_get h k = None → dict_set h k v = h ++ [(k, v)].
Proof.
  induction h as [|[k' v'] h IH]; simpl; [done|].
  case_decide; [done|]. intros Hg. by rewrite IH.
Qed.

Lemma dict_set_keys h k v :
  is_Some (dict_get h k) → (dict_set h k v).*1 = h.*1.
Proof.
  induction h as [|[k' v'] h IH]; csimpl.
  - intros [? ?]; done.
  - case_decide; csimpl; [done|]. intros Hs. by rewrite IH.
Qed.

Lemma dict_get_None h k : dict_get h k = None ↔ k ∉ h.*1.
Proof.
  induction h as [|[k' v'] h IH]; csimpl.
  - split; [intros _ H; inversion H | done].
  - rewrite not_elem_of_cons. case_decide as Hk.
    + split; [done | by intros [? _]].
    + rewrite IH. split; [done | by intros [_ ?]].
Qed.

Lemma dict_set_NoDup h k v : NoDup h.*1 → NoDup (dict_set h k v).*1.
Proof.
  intros Hnd. destruct (dict_get h k) as [p|] eqn:Hg.
  - by rewrite dict_set_keys.
  - rewrite dict_set_absent, fmap_app by done. csimpl.
    apply NoDup_app. split_and!; [done| |apply NoDup_singleton].
    intros x Hx Hx'. apply list_elem_of_singleton in Hx' as ->.
    by apply dict_get_None in Hg.
Qed.

Lemma dict_get_elem h k v :
  NoDup h.*1 → (k, v) ∈ h ↔ dict_get h k = Some v.
Proof.
  induction h as [|[k' v'] h IH]; csimpl; intros Hnd.
  - split; [intros H; inversion H | done].
  - apply NoDup_cons in Hnd as [Hk Hnd]. rewrite elem_of_cons.
    case_decide as He.
    + subst k'. split; [|intros [= ->]; by left].
      intros [[= ->]|Hin]; [done|].
      destruct Hk. apply list_elem_of_fmap. by exists (k, v).
    + rewrite IH by done. split; [|by right].
      intros [[= ? ?]|Hin]; done.
Qed.

Lemma position_of_set_eq h k v : position_of (dict_set h k v) k = v.
Proof. unfold position_of. by rewrite dict_get_set_eq. Qed.

Lemma position_of_set_ne h k k' v :
  k ≠ k' → position_of (dict_set h k v) k' = position_of h k'.
Proof. intros. unfold position_of. by rewrite dict_get_set_ne. Qed.

Lemma position_of_ensure h k k' :
  position_of (ensure_position h k) k' = position_of h k'.
Proof.
  unfold ensure_position. destruct (dict_get h k) eqn:Hg; [done|].
  destruct (decide (k = k')) as [<-|Hne].
  - rewrite position_of_set_eq. unfold position_of. by rewrite Hg.
  - by apply position_of_set_ne.
Qed.

Lemma ensure_position_NoDup h k : NoDup h.*1 → NoDup (ensure_position h k).*1.
Proof.
  unfold ensure_position. destruct (dict_get h k); [done|].
  apply dict_set_NoDup.
Qed.

(** ** One transaction *)

Ltac out_simpl :=
  unfold mbind, mret, out_bind, out_ret, print in *; simpl in *.

Lemma process_transaction_own h txn :
  position_of (process_transaction h txn).1 (ticker txn)
  = update_position (position_of h (ticker txn)) txn.
Proof.
  unfold process_transaction, update_position.
  rewrite position_of_ensure.
  repeat case_decide; out_simpl;
    rewrite ?position_of_set_eq, ?position_of_ensure; done.
Qed.

Lemma process_transaction_other h txn k :
  ticker txn ≠ k →
  position_of (process_transaction h txn).1 k = position_of h k.
Proof.
  intros Hne. unfold process_transaction.
  repeat case_decide; out_simpl;
    rewrite ?position_of_set_ne by done; apply position_of_ensure.
Qed.

Lemma process_transaction_NoDup h txn :
  NoDup h.*1 → NoDup (process_transaction h txn).1.*1.
Proof.
  intros Hnd. unfold process_transaction.
  repeat case_decide; out_simpl;
    auto using dict_set_NoDup, ensure_position_NoDup.
Qed.

Lemma process_transactions_NoDup txns h :
  NoDup h.*1 → NoDup (process_transactions h txns).1.*1.
Proof.
  revert h. induction txns as [|txn rest IH]; intros h Hnd; [done|].
  simpl. out_simpl. apply IH. by apply process_transaction_NoDup.
Qed.

(** The accumulator of a ticker after the loop is the fold of its own
    transactions, in order, over its accumulator before the loop. *)
Lemma process_transactions_position txns h k :
  position_of (process_transactions h txns).1 k
  = foldl update_position (position_of h k)
      (filter (λ txn, ticker txn = k) txns).
Proof.
  revert h. induction txns as [|txn rest IH]; intros h; [done|].
  simpl. out_simpl. rewrite IH, filter_cons. case_decide as Hk.
  - subst k. simpl. by rewrite process_transaction_own.
  - by rewrite process_transaction_other.
Qed.

(** An ensured key with no shares yields no row: the frame of holdings is
    that of the dict before. *)
Lemma holdings_frame_ensure h k :
  holdings_frame (ensure_position h k) = holdings_frame h.
Proof.
  unfold holdings_frame, ensure_position.
  destruct (dict_get h k) eqn:Hg; [done|].
  rewrite dict_set_absent, omap_app by done.
  change (omap holding_record [(k, new_position)]) with (@nil HoldingRow).
  by rewrite app_nil_r.
Qed.

(** ** Selling *)

Lemma process_transaction_sell h txn :
  transaction_type txn = "sell" →
  process_transaction h txn =
    let h' := ensure_position h (ticker txn) in
    let p := position_of h (ticker txn) in
    if decide (0 < total_shares p)%Qc then
      (dict_set h' (ticker txn)
         (mkPosition (total_shares p - shares txn)
            (total_cost p - shares txn * (total_cost p / total_shares p))),
       [])
    else (h', [WarningNoSharesHeld (shares txn) (ticker txn)]).
Proof.
  intros Hty. unfold process_transaction.
  rewrite position_of_ensure, Hty. simpl. by case_decide.
Qed.


(** C5. In an accumulator where the ticker of a sell has no shares (zero,
    negative, or no entry yet), the sell changes the shares and the total
    cost of no ticker and the rows emitted from the accumulator; a ticker
    that has an entry leaves the dict as it was. The loop goes on: the only
    trace is the warning. *)
Theorem sell_without_shares_is_noop (h : Holdings) (txn : Transaction) :
  transaction_type txn = "sell" →
  (total_shares (position_of h (ticker txn)) ≤ 0)%Qc →
  (∀ k, position_of (process_transaction h txn).1 k = position_of h k) ∧
  holdings_frame (process_transaction h txn).1 = holdings_frame h ∧
  (is_Some (dict_get h (ticker txn)) → (process_transaction h txn).1 = h) ∧
  (process_transaction h txn).2
    = [WarningNoSharesHeld (shares txn) (ticker txn)].
Proof.
  intros Hty Hle. rewrite process_transaction_sell by done. simpl.
  rewrite decide_False by by apply Qcle_not_lt. simpl.
  split_and!; [| |intros [p Hp]|done].
  - intros k. apply position_of_ensure.
  - apply holdings_frame_ensure.
  - unfold ensure_position. by rewrite Hp.
Qed.

Lemma sell_without_shares_is_noop_witness :
  let h := [("AAPL", mkPosition (qc 15) (qc 2300))] in
  let txn := mkTransaction 3 1 "MSFT" "sell" (qc 4) (qc 320) 9 no_notes in
  (∀ k, position_of (process_transaction h txn).1 k = position_of h k) ∧
  holdings_frame (process_transaction h txn).1 = holdings_frame h ∧
  (is_Some (dict_get h "MSFT") → (process_transaction h txn).1 = h) ∧
  (process_transaction h txn).2 = [WarningNoSharesHeld (qc 4) "MSFT"].
Proof.
  apply (sell_without_shares_is_noop
           [("AAPL", mkPosition (qc 15) (qc 2300))]
           (mkTransaction 3 1 "MSFT" "sell" (qc 4) (qc 320) 9 no_notes));
    [reflexivity | vm_compute; discriminate].
Defined.

(** ** The rows of the holdings frame *)

Lemma holding_record_Some k v r :
  holding_record (k, v) = Some r ↔
  (0 < total_shares v)%Qc ∧
  r = mkHoldingRow k (total_shares v) (total_cost v / total_shares v)
        (total_cost v).
Proof.
  unfold holding_record. case_decide as Hpos.
  - split; [intros [= <-]; done | intros [_ ->]; done].
  - split; [done | intros [? _]; done].
Qed.

Lemma rows_from_records {R} keys (data : list R) :
  rows (from_records keys data) = data.
Proof. by destruct data. Qed.

Lemma position_of_positive h k :
  (0 < total_shares (position_of h k))%Qc →
  dict_get h k = Some (position_of h k).
Proof.
  unfold position_of. destruct (dict_get h k); [done|].
  simpl. intros H. by apply Qclt_not_eq in H.
Qed.

Lemma holding_rows_elem h r :
  NoDup h.*1 →
  r ∈ omap holding_record h ↔
  let p := position_of h (row_ticker r) in
  (0 < total_shares p)%Qc ∧
  r = mkHoldingRow (row_ticker r) (total_shares p)
        (total_cost p / total_shares p) (total_cost p).
Proof.
  intros Hnd. rewrite list_elem_of_omap. split.
  - intros [[k v] [Hin Hrec]].
    apply holding_record_Some in Hrec as [Hpos ->]. simpl.
    apply dict_get_elem in Hin; [|done].
    unfold position_of. rewrite Hin. done.
  - simpl. intros [Hpos Hr].
    exists (row_ticker r, position_of h (row_ticker r)). split.
    + apply dict_get_elem; [done|]. by apply position_of_positive.
    + by apply holding_record_Some.
Qed.

Lemma holding_rows_ticker h k :
  NoDup h.*1 →
  k ∈ row_ticker <$> omap holding_record h ↔
  (0 < total_shares (position_of h k))%Qc.
Proof.
  intros Hnd. rewrite list_elem_of_fmap. split.
  - intros [r [-> Hr]]. by apply holding_rows_elem in Hr as [? _].
  - intros Hpos.
    exists (mkHoldingRow k (total_shares (position_of h k))
              (total_cost (position_of h k) / total_shares (position_of h k))
              (total_cost (position_of h k))).
    split; [done|]. by apply holding_rows_elem.
Qed.

Lemma holding_rows_keys h k :
  k ∈ row_ticker <$> omap holding_record h → k ∈ h.*1.
Proof.
  rewrite !list_elem_of_fmap. intros [r [-> Hr]].
  apply list_elem_of_omap in Hr as [[k v] [Hin Hrec]].
  apply holding_record_Some in Hrec as [_ ->]. by exists (k, v).
Qed.

Lemma holding_rows_NoDup h :
  NoDup h.*1 → NoDup (row_ticker <$> omap holding_record h).
Proof.
  induction h as [|[k v] h IH]; [done|].
  rewrite fmap_cons. intros [Hk Hnd]%NoDup_cons.
  cbn [omap list_omap]. destruct (holding_record (k, v)) as [r|] eqn:Hr.
  - apply holding_record_Some in Hr as [_ ->]. rewrite fmap_cons.
    apply NoDup_cons. split; [|by apply IH].
    intros Hin. by apply Hk, holding_rows_keys.
  - by apply IH.
Qed.

(** ** [get_portfolio_holdings] on a portfolio that exists *)

Lemma final_holdings_NoDup st pid : NoDup (final_holdings st pid).*1.
Proof. apply process_transactions_NoDup. constructor. Qed.

Lemma get_portfolio_holdings_found st pid :
  portfolio_exists st pid →
  ∃ df, (get_portfolio_holdings st pid).1 = Some df ∧
        rows df = omap holding_record (final_holdings st pid).
Proof.
  intros [p Hp]%query_portfolio_Some.
  unfold get_portfolio_holdings, final_holdings. rewrite Hp.
  destruct (query_transactions st pid) as [|txn rest].
  - by eexists.
  - eexists. split; [done|]. apply rows_from_records.
Qed.

(** ** Not found, and empty *)

Lemma get_portfolio_holdings_None st pid :
  ¬ portfolio_exists st pid →
  get_portfolio_holdings st pid = (None, [ErrorPortfolioNotFound pid]).
Proof.
  intros Hno%query_portfolio_None.
  unfold get_portfolio_holdings. by rewrite Hno.
Qed.

(** C7. For a portfolio id that no portfolio has, [get_portfolio_holdings]
    returns [None] (after the not-found message), which is not what it
    returns for a portfolio that exists and has no transactions. *)
Theorem holdings_not_found (st : Store) (pid : Z) :
  ¬ portfolio_exists st pid →
  get_portfolio_holdings st pid = (None, [ErrorPortfolioNotFound pid]) ∧
  ∀ st' pid',
    portfolio_exists st' pid' →
    (∀ t, t ∈ transactions st' → portfolio_id t ≠ pid') →
    (get_portfolio_holdings st' pid').1 ≠ (get_portfolio_holdings st pid).1.
Proof.
  intros Hno. pose proof (get_portfolio_holdings_None st pid Hno) as Hres.
  split; [done|]. intros st' pid' He _.
  destruct (get_portfolio_holdings_found st' pid' He) as [df [-> _]].
  by rewrite Hres.
Qed.

Lemma holdings_not_found_witness :
  get_portfolio_holdings sample_store 9999
    = (None, [ErrorPortfolioNotFound 9999]) ∧
  ∀ st' pid',
    portfolio_exists st' pid' →
    (∀ t, t ∈ transactions st' → portfolio_id t ≠ pid') →
    (get_portfolio_holdings st' pid').1
      ≠ (get_portfolio_holdings sample_store 9999).1.
Proof.
  apply (holdings_not_found sample_store 9999).
  unfold portfolio_exists. vm_compute.
  intros H. apply elem_of_cons in H as [H|H]; [discriminate | inversion H].
Defined.

(** C8. For a portfolio that exists and has no transaction in the store,
    [get_portfolio_holdings] returns a frame with the four holdings columns
    and no row, not [None]. *)
Theorem holdings_of_empty_portfolio (st : Store) (pid : Z) :
  portfolio_exists st pid →
  (∀ t, t ∈ transactions st → portfolio_id t ≠ pid) →
  get_portfolio_holdings st pid
  = (Some (mkDataFrame
             ["ticker"; "total_shares"; "avg_cost_basis"; "total_cost"] []),
     [NoTransactionsFound pid]).
Proof.
  intros [p Hp]%query_portfolio_Some Hnone%query_transactions_nil.
  unfold get_portfolio_holdings. by rewrite Hp, Hnone.
Qed.

Lemma holdings_of_empty_portfolio_witness :
  get_portfolio_holdings sample_empty 1
  = (Some (mkDataFrame
             ["ticker"; "total_shares"; "avg_cost_basis"; "total_cost"] []),
     [NoTransactionsFound 1]).
Proof.
  apply (holdings_of_empty_portfolio sample_empty 1).
  - unfold portfolio_exists. vm_compute. left.
  - vm_compute. intros t H. inversion H.
Defined.


(** ** Which tickers are emitted *)

Lemma buy_then_sell_all p b s :
  transaction_type b = "buy" →
  transaction_type s = "sell" →
  shares s = shares b →
  total_shares p = 0%Qc →
  ¬ (0 < total_shares (update_position (update_position p b) s))%Qc.
Proof.
  intros Hb Hs Hq Hp. unfold update_position at 2.
  rewrite decide_True by done. unfold update_position.
  rewrite Hs. simpl. case_decide as Hpos; simpl.
  - rewrite Hp, Hq, Qcplus_0_l. unfold Qcminus. rewrite Qcplus_opp_r.
    by intros ?%Qclt_not_eq.
  - done.
Qed.

(** C4. For a portfolio that exists, the tickers of the rows of the holdings
    frame are, once each, the tickers whose accumulated shares are positive
    at the end of the loop. A ticker whose transactions are a buy of some
    quantity and then a sell of the same quantity has no row. *)
Theorem holdings_tickers (st : Store) (pid : Z) :
  portfolio_exists st pid →
  ∃ df, (get_portfolio_holdings st pid).1 = Some df ∧
    NoDup (row_ticker <$> rows df) ∧
    (∀ t, t ∈ row_ticker <$> rows df ↔
          (0 < total_shares (position_of (final_holdings st pid) t))%Qc) ∧
    (∀ t b s,
       filter (λ txn, ticker txn = t) (query_transactions st pid) = [b; s] →
       transaction_type b = "buy" →
       transaction_type s = "sell" →
       shares s = shares b →
       t ∉ row_ticker <$> rows df).
Proof.
  intros He.
  destruct (get_portfolio_holdings_found st pid He) as [df [Hdf Hrows]].
  exists df. rewrite Hrows. pose proof (final_holdings_NoDup st pid) as Hnd.
  split_and!; [done|by apply holding_rows_NoDup| |].
  - intros t. by apply holding_rows_ticker.
  - intros t b s Hfilter Hb Hs Hq. rewrite holding_rows_ticker by done.
    unfold final_holdings. rewrite process_transactions_position, Hfilter.
    by apply buy_then_sell_all.
Qed.

Example full_liquidation :
  (get_portfolio_holdings liquidated_store 1).1 = Some (mkDataFrame [] []).
Proof. vm_compute. reflexivity. Qed.

Lemma holdings_tickers_witness :
  ∃ df, (get_portfolio_holdings liquidated_store 1).1 = Some df ∧
        "TSLA" ∉ row_ticker <$> rows df.
Proof.
  destruct (holdings_tickers liquidated_store 1) as (df & Hdf & _ & _ & Hsold).
  - unfold portfolio_exists. vm_compute. left.
  - exists df. split; [done|]. eapply (Hsold "TSLA"); reflexivity.
Defined.

(** ** Validation in [add_transaction] *)

(** C6. When the lower-cased transaction type is neither 'buy' nor 'sell',
    or the shares are not positive, or the price per share is not positive,
    [add_transaction] returns [False] and the store it leaves is the store
    it was given: no transaction is added. *)
Theorem add_transaction_rejects (pid : Z) (ticker transaction_type : string)
    (shares price_per_share : Qc) (transaction_date : Z) (notes : string)
    (st : Store) :
  lower transaction_type ∉ ["buy"; "sell"] ∨
  (shares ≤ 0)%Qc ∨ (price_per_share ≤ 0)%Qc →
  (add_transaction pid ticker transaction_type shares price_per_share
     transaction_date notes st).1 = (false, st).
Proof.
  intros Hbad. unfold add_transaction.
  repeat case_decide; try done. by destruct Hbad as [?|[?|?]].
Qed.

Lemma add_transaction_rejects_witness :
  (add_transaction 1 "AAPL" "hold" (qc 10) (qc 150) 5 no_notes sample_store).1
  = (false, sample_store).
Proof.
  apply (add_transaction_rejects 1 "AAPL" "hold" (qc 10) (qc 150) 5 no_notes
           sample_store).
  left. vm_compute. intros H.
  repeat (apply elem_of_cons in H as [H|H]; [discriminate|]). inversion H.
Defined.

Example add_transaction_zero_shares :
  (add_transaction 1 "AAPL" "buy" 0%Qc (qc 150) 5 no_notes sample_store).1
  = (false, sample_store).
Proof. reflexivity. Qed.

Example add_transaction_negative_price :
  (add_transaction 1 "AAPL" "SELL" (qc 10) (qc (-150)) 5 no_notes sample_store).1
  = (false, sample_store).
Proof. reflexivity. Qed.

Example add_transaction_accepts :
  length (transactions
    (add_transaction 1 "AAPL" "SELL" (qc 10) (qc 150) 5 no_notes sample_store).1.2)
  = S (length (transactions sample_store)).
Proof. reflexivity. Qed.

(** ** The performance evaluator *)

Lemma get_portfolio_holdings_empty st pid df :
  (get_portfolio_holdings st pid).1 = Some df →
  empty df = true ↔ rows df = [].
Proof.
  unfold get_portfolio_holdings.
  destruct (query_portfolio st pid); [|done].
  destruct (query_transactions st pid) as [|txn rest].
  - intros [= <-]. done.
  - out_simpl. intros [= <-]. unfold holdings_frame.
    by destruct (omap holding_record _).
Qed.

Section PerformanceProperties.

Variable get_current_price : string → option Qc.

Lemma evaluate_rows_spec l acc :
  ∃ new,
    performance_data (evaluate_rows get_current_price acc l).1
      = performance_data acc ++ new ∧
    Forall2 (evaluates get_current_price) new (priced get_current_price l) ∧
    running_total_cost (evaluate_rows get_current_price acc l).1
      = (running_total_cost acc
         + sum_Qc (row_total_cost <$> priced get_current_price l))%Qc ∧
    running_current_value (evaluate_rows get_current_price acc l).1
      = (running_current_value acc
         + sum_Qc (market_value get_current_price
                     <$> priced get_current_price l))%Qc.
Proof.
  revert acc. induction l as [|row l IH]; intros acc.
  - exists []. simpl. by rewrite app_nil_r, !Qcplus_0_r.
  - unfold priced. rewrite filter_cons. fold (priced get_current_price l).
    destruct (get_current_price (row_ticker row)) as [price|] eqn:Hprice.
    + rewrite decide_True by by eexists.
      cbn [evaluate_rows]. unfold evaluate_row. rewrite Hprice.
      unfold mbind, mret, out_bind, out_ret. cbn [fst snd].
      edestruct IH as (new & -> & Hnew & -> & ->). cbn [performance_data
        running_total_cost running_current_value].
      eexists (_ :: new). rewrite <- app_assoc, !fmap_cons.
      split_and!; [done| | |].
      * constructor; [|done]. by repeat split.
      * cbn [sum_Qc foldr]. by rewrite Qcplus_assoc.
      * cbn [sum_Qc foldr]. unfold market_value at 2. rewrite Hprice.
        by rewrite Qcplus_assoc.
    + rewrite decide_False by by intros [? ?].
      cbn [evaluate_rows]. unfold evaluate_row. rewrite Hprice.
      unfold mbind, mret, out_bind, out_ret, print. cbn [fst snd].
      apply IH.
Qed.


End PerformanceProperties.


(** Of AAPL (cost 5060/3) and MSFT (cost 2800, no price), only AAPL
    counts. *)
Example sample_performance :
  (λ perf, (perf_ticker <$> rows (positions perf),
            this (portfolio_total_cost perf),
            this (total_current_value perf)))
    <$> (get_portfolio_performance sample_price sample_store 1).1
  = Some (["AAPL"], (5060 # 3)%Q, (2200 # 1)%Q).
Proof. vm_compute. reflexivity. Qed.

(** ** A portfolio that does not exist *)

Section NotFound.

Variable get_current_price : string → option Qc.

Lemma get_portfolio_performance_None st pid :
  ¬ portfolio_exists st pid →
  get_portfolio_performance get_current_price st pid
  = (Some no_performance, [ErrorPortfolioNotFound pid; NoHoldingsFound pid]).
Proof.
  intros Hno. unfold get_portfolio_performance.
  by rewrite (get_portfolio_holdings_None st pid Hno).
Qed.

(** C1, as the code has it. For a portfolio id that no portfolio has,
    [get_portfolio_performance] returns the result with no position and
    zero aggregates, after the not-found and no-holdings messages: the
    [None] of [get_portfolio_holdings] is taken like an empty frame. The
    same result is returned for a portfolio that exists and yields no
    position. *)
Theorem performance_not_found (st : Store) (pid : Z) :
  (¬ portfolio_exists st pid →
   get_portfolio_performance get_current_price st pid
   = (Some no_performance,
      [ErrorPortfolioNotFound pid; NoHoldingsFound pid])) ∧
  (portfolio_exists st pid →
   omap holding_record (final_holdings st pid) = [] →
   (get_portfolio_performance get_current_price st pid).1
   = Some no_performance).
Proof.
  split.
  - apply get_portfolio_performance_None.
  - intros He Hnil.
    destruct (get_portfolio_holdings_found st pid He) as (df & Hdf & Hrows).
    rewrite Hnil in Hrows.
    apply (get_portfolio_holdings_empty st pid df Hdf) in Hrows.
    unfold get_portfolio_performance.
    destruct (get_portfolio_holdings st pid) as [res log]. simpl in Hdf.
    subst res. out_simpl. by rewrite Hrows.
Qed.

(** C10. For a portfolio id that no portfolio has,
    [save_portfolio_snapshot] returns [False] and leaves the store as it
    was, although the performance it computes first is a result, not
    [None]: the last message is that of its own look-up of the portfolio. *)
Theorem snapshot_not_found (now : Z) (st : Store) (pid : Z) :
  ¬ portfolio_exists st pid →
  save_portfolio_snapshot get_current_price now st pid
  = ((false, st),
     [ErrorPortfolioNotFound pid; NoHoldingsFound pid;
      ErrorPortfolioNotFound pid]) ∧
  (get_portfolio_performance get_current_price st pid).1
  = Some no_performance.
Proof.
  intros Hno. pose proof (get_portfolio_performance_None st pid Hno) as Hperf.
  unfold save_portfolio_snapshot.
  rewrite Hperf. apply query_portfolio_None in Hno.
  out_simpl. by rewrite Hno.
Qed.

End NotFound.

Lemma sample_store_9999 : ¬ portfolio_exists sample_store 9999.
Proof.
  unfold portfolio_exists. vm_compute.
  intros H. apply elem_of_cons in H as [H|H]; [discriminate | inversion H].
Defined.

Lemma performance_not_found_witness :
  get_portfolio_performance sample_price sample_store 9999
  = (Some no_performance,
     [ErrorPortfolioNotFound 9999; NoHoldingsFound 9999]).
Proof.
  apply (performance_not_found sample_price sample_store 9999).
  apply sample_store_9999.
Defined.

(** The claim C1 fails on the sample store: portfolio 9999 does not exist
    and the result is not [None]. *)
Lemma performance_not_found_not_None :
  ¬ portfolio_exists sample_store 9999 ∧
  (get_portfolio_performance sample_price sample_store 9999).1 ≠ None.
Proof. split; [apply sample_store_9999 | done]. Qed.

Lemma snapshot_not_found_witness :
  save_portfolio_snapshot sample_price 77 sample_store 9999
  = ((false, sample_store),
     [ErrorPortfolioNotFound 9999; NoHoldingsFound 9999;
      ErrorPortfolioNotFound 9999]) ∧
  (get_portfolio_performance sample_price sample_store 9999).1
  = Some no_performance.
Proof.
  apply (snapshot_not_found sample_price 77 sample_store 9999).
  apply sample_store_9999.
Defined.

(** A portfolio that exists and has no position gets a snapshot of 0. *)
Example snapshot_of_empty_portfolio :
  (λ r, (r.1, (λ s, this (total_value s)) <$> snapshots r.2))
    (save_portfolio_snapshot sample_price 77 sample_empty 1).1
  = (true, [0%Q]).
Proof. vm_compute. reflexivity. Qed.

(** * Further properties *)

(** ** Keys *)

Lemma next_key_above keys k : k ∈ keys → k < next_key keys.
Proof.
  unfold next_key. induction keys as [|k' keys IH]; simpl.
  - intros H. inversion H.
  - intros [->|Hin]%elem_of_cons; [lia|]. specialize (IH Hin). lia.
Qed.

Lemma next_key_fresh keys : next_key keys ∉ keys.
Proof. intros Hin. apply next_key_above in Hin. lia. Qed.

Lemma query_portfolio_app_fresh st p :
  ¬ portfolio_exists st (portfolio_key p) →
  query_portfolio
    (mkStore (portfolios st ++ [p]) (transactions st) (snapshots st))
    (portfolio_key p) = Some p.
Proof.
  intros Hno. unfold query_portfolio. simpl. rewrite filter_app.
  apply query_portfolio_None in Hno. unfold query_portfolio in Hno.
  destruct (filter _ (portfolios st)); [|done].
  rewrite filter_cons, decide_True by done. done.
Qed.

(** ** [create_portfolio] *)

(** X1. [create_portfolio] returns an id that no portfolio of the store
    has; afterwards that id is looked up to the new portfolio, with the name
    and the creation time given, every portfolio that existed still exists,
    and the transactions and snapshots are as before. *)
Theorem create_portfolio_fresh (now : Z) (name : string) (st : Store) :
  ∃ key,
    (create_portfolio now name st).1.1 = Some key ∧
    ¬ portfolio_exists st key ∧
    query_portfolio (create_portfolio now name st).1.2 key
      = Some (mkPortfolio key name now) ∧
    (∀ pid, portfolio_exists (create_portfolio now name st).1.2 pid ↔
            portfolio_exists st pid ∨ pid = key) ∧
    transactions (create_portfolio now name st).1.2 = transactions st ∧
    snapshots (create_portfolio now name st).1.2 = snapshots st.
Proof.
  exists (next_key (portfolio_key <$> portfolios st)).
  assert (¬ portfolio_exists st (next_key (portfolio_key <$> portfolios st)))
    as Hfresh by apply next_key_fresh.
  unfold create_portfolio. out_simpl. split_and!; try done.
  - by apply (query_portfolio_app_fresh st (mkPortfolio _ name now)).
  - intros pid. unfold portfolio_exists. simpl.
    rewrite fmap_app, elem_of_app. simpl. by rewrite list_elem_of_singleton.
Qed.

(** ** What [get_portfolio_holdings] reads *)

#[global] Instance portfolio_exists_dec st pid :
  Decision (portfolio_exists st pid).
Proof. unfold portfolio_exists. apply _. Defined.

Lemma get_portfolio_holdings_ext st1 st2 pid :
  (portfolio_exists st1 pid ↔ portfolio_exists st2 pid) →
  query_transactions st1 pid = query_transactions st2 pid →
  get_portfolio_holdings st1 pid = get_portfolio_holdings st2 pid.
Proof.
  intros Hex Hq. unfold get_portfolio_holdings. rewrite Hq.
  destruct (decide (portfolio_exists st1 pid)) as [He|Hno].
  - destruct (query_portfolio_Some st1 pid He) as [p1 ->].
    destruct (query_portfolio_Some st2 pid (proj1 Hex He)) as [p2 ->]. done.
  - rewrite (proj2 (query_portfolio_None st1 pid) Hno).
    rewrite (proj2 (query_portfolio_None st2 pid)); [done|].
    by rewrite <- Hex.
Qed.

(** ** [add_transaction] *)

Lemma add_transaction_ok pid ticker transaction_type shares price_per_share
    transaction_date notes st :
  lower transaction_type ∈ ["buy"; "sell"] →
  (0 < shares)%Qc → (0 < price_per_share)%Qc →
  portfolio_exists st pid →
  (add_transaction pid ticker transaction_type shares price_per_share
     transaction_date notes st).1
  = (true,
     mkStore (portfolios st)
       (transactions st ++
          [mkTransaction (next_key (transaction_key <$> transactions st))
             pid (upper ticker) (lower transaction_type) shares
             price_per_share transaction_date notes])
       (snapshots st)).
Proof.
  intros Hty Hs Hp [p Hq]%query_portfolio_Some. unfold add_transaction.
  rewrite decide_False by (intros Hn; by apply Hn).
  rewrite decide_False by by apply Qclt_not_le.
  rewrite decide_False by by apply Qclt_not_le.
  by rewrite Hq.
Qed.

Lemma add_transaction_not_found pid ticker transaction_type shares
    price_per_share transaction_date notes st :
  ¬ portfolio_exists st pid →
  (add_transaction pid ticker transaction_type shares price_per_share
     transaction_date notes st).1 = (false, st).
Proof.
  intros Hno%query_portfolio_None. unfold add_transaction.
  repeat case_decide; try done. by rewrite Hno.
Qed.

Lemma add_transaction_invalid pid ticker transaction_type shares
    price_per_share transaction_date notes st :
  lower transaction_type ∉ ["buy"; "sell"] ∨
  ¬ (0 < shares)%Qc ∨ ¬ (0 < price_per_share)%Qc →
  (add_transaction pid ticker transaction_type shares price_per_share
     transaction_date notes st).1 = (false, st).
Proof.
  intros Hbad. unfold add_transaction.
  repeat case_decide; try done.
  destruct Hbad as [?|[Hn|Hn]]; [done|..]; destruct Hn; by apply Qcnot_le_lt.
Qed.

(** X2. [add_transaction] returns [True] exactly when the lower-cased type
    is 'buy' or 'sell', the shares and the price are positive and the
    portfolio exists; the ticker is not checked. When it returns [False] the
    store is the one it was given. *)
Theorem add_transaction_succeeds_iff (pid : Z)
    (ticker transaction_type : string) (shares price_per_share : Qc)
    (transaction_date : Z) (notes : string) (st : Store) :
  let result := (add_transaction pid ticker transaction_type shares
                   price_per_share transaction_date notes st).1 in
  (result.1 = true ↔
     lower transaction_type ∈ ["buy"; "sell"] ∧
     (0 < shares)%Qc ∧ (0 < price_per_share)%Qc ∧
     portfolio_exists st pid) ∧
  (result.1 = false → result.2 = st).
Proof.
  simpl.
  destruct (decide (lower transaction_type ∈ ["buy"; "sell"])) as [Hty|Hty];
    [|rewrite add_transaction_invalid by by left].
  2: { simpl. split; [split; [done|by intros (? & ? & ? & ?)]|done]. }
  destruct (decide (0 < shares)%Qc) as [Hs|Hs];
    [|rewrite add_transaction_invalid by (right; by left)].
  2: { simpl. split; [split; [done|by intros (? & ? & ? & ?)]|done]. }
  destruct (decide (0 < price_per_share)%Qc) as [Hp|Hp];
    [|rewrite add_transaction_invalid by (right; by right)].
  2: { simpl. split; [split; [done|by intros (? & ? & ? & ?)]|done]. }
  destruct (decide (portfolio_exists st pid)) as [He|He].
  - rewrite add_transaction_ok by done. simpl. by split.
  - rewrite add_transaction_not_found by done. simpl.
    split; [split; [done|by intros (? & ? & ? & ?)]|done].
Qed.

Lemma add_transaction_cases pid ticker transaction_type shares
    price_per_share transaction_date notes st :
  (add_transaction pid ticker transaction_type shares price_per_share
     transaction_date notes st).1 = (false, st) ∨
  (lower transaction_type ∈ ["buy"; "sell"] ∧
   (0 < shares)%Qc ∧ (0 < price_per_share)%Qc ∧ portfolio_exists st pid ∧
   (add_transaction pid ticker transaction_type shares price_per_share
      transaction_date notes st).1
   = (true,
      mkStore (portfolios st)
        (transactions st ++
           [mkTransaction (next_key (transaction_key <$> transactions st))
              pid (upper ticker) (lower transaction_type) shares
              price_per_share transaction_date notes])
        (snapshots st))).
Proof.
  destruct (decide (lower transaction_type ∈ ["buy"; "sell"])) as [Hty|Hty];
    [|left; apply add_transaction_invalid; by left].
  destruct (decide (0 < shares)%Qc) as [Hs|Hs];
    [|left; apply add_transaction_invalid; right; by left].
  destruct (decide (0 < price_per_share)%Qc) as [Hp|Hp];
    [|left; apply add_transaction_invalid; right; by right].
  destruct (decide (portfolio_exists st pid)) as [He|He];
    [|left; by apply add_transaction_not_found].
  right. split_and!; try done. by apply add_transaction_ok.
Qed.

(** ** The performance is always a result *)

Lemma get_portfolio_performance_Some get_current_price st pid :
  ∃ perf, (get_portfolio_performance get_current_price st pid).1 = Some perf.
Proof.
  unfold get_portfolio_performance.
  destruct (get_portfolio_holdings st pid) as [[df|] log]; out_simpl;
    [|by eexists].
  destruct (empty df); by eexists.
Qed.

Lemma save_portfolio_snapshot_cases get_current_price now st pid :
  (¬ portfolio_exists st pid ∧
   (save_portfolio_snapshot get_current_price now st pid).1 = (false, st)) ∨
  (portfolio_exists st pid ∧
   ∃ perf,
     (get_portfolio_performance get_current_price st pid).1 = Some perf ∧
     (save_portfolio_snapshot get_current_price now st pid).1
     = (true,
        mkStore (portfolios st) (transactions st)
          (snapshots st ++
             [mkPortfolioSnapshot (next_key (snapshot_key <$> snapshots st))
                pid (total_current_value perf) now]))).
Proof.
  destruct (get_portfolio_performance_Some get_current_price st pid)
    as [perf Hperf].
  unfold save_portfolio_snapshot.
  destruct (get_portfolio_performance get_current_price st pid) as [res log].
  simpl in Hperf. subst res. out_simpl.
  destruct (query_portfolio st pid) as [p|] eqn:Hq.
  - right. split; [|by exists perf].
    destruct (decide (portfolio_exists st pid)) as [|Hno]; [done|].
    apply query_portfolio_None in Hno. congruence.
  - left. split; [by apply query_portfolio_None|done].
Qed.

(** ** Well-formed stores are kept *)

Lemma ascii_upper_idemp c : ascii_upper (ascii_upper c) = ascii_upper c.
Proof.
  destruct c as [[] [] [] [] [] [] [] []]; reflexivity.
Qed.

Lemma upper_idemp s : upper (upper s) = upper s.
Proof.
  unfold upper. induction s as [|c s IH]; simpl; [done|].
  by rewrite ascii_upper_idemp, IH.
Qed.

Lemma valid_transaction_mono st st' t :
  (∀ pid, portfolio_exists st pid → portfolio_exists st' pid) →
  valid_transaction st t → valid_transaction st' t.
Proof. intros Hmono (? & ? & ? & ? & ?). by repeat split; auto. Qed.

Lemma NoDup_snoc_fresh (keys : list Z) :
  NoDup keys → NoDup (keys ++ [next_key keys]).
Proof.
  intros Hnd. apply NoDup_app. split_and!; [done| |apply NoDup_singleton].
  intros k Hk ->%list_elem_of_singleton. by apply next_key_fresh in Hk.
Qed.

(** X3. The empty store is well formed, and [create_portfolio],
    [add_transaction] and [save_portfolio_snapshot] keep a store well
    formed, whatever their arguments: keys stay distinct, every stored
    transaction has type 'buy' or 'sell', positive shares and price and an
    upper-case ticker, and transactions and snapshots belong to portfolios
    of the store. *)
Theorem valid_store_kept (st : Store) :
  valid_store empty_store ∧
  (valid_store st →
   (∀ now name, valid_store (create_portfolio now name st).1.2) ∧
   (∀ pid ticker transaction_type shares price_per_share transaction_date
      notes,
      valid_store (add_transaction pid ticker transaction_type shares
                     price_per_share transaction_date notes st).1.2) ∧
   (∀ get_current_price now pid,
      valid_store (save_portfolio_snapshot get_current_price now st pid).1.2)).
Proof.
  split; [repeat split; constructor|].
  intros (Hpk & Htk & Hsk & Htx & Hsn). split_and!.
  - intros now name. unfold create_portfolio. out_simpl.
    assert (∀ pid, portfolio_exists st pid →
      portfolio_exists
        (mkStore (portfolios st ++
           [mkPortfolio (next_key (portfolio_key <$> portfolios st)) name now])
           (transactions st) (snapshots st)) pid) as Hmono.
    { intros pid He. unfold portfolio_exists in *. simpl.
      rewrite fmap_app, elem_of_app. by left. }
    repeat split; simpl; [|done..| |].
    + rewrite fmap_app. by apply NoDup_snoc_fresh.
    + eapply Forall_impl; [done|]. intros t.
      by apply valid_transaction_mono.
    + eapply Forall_impl; [done|]. intros s. apply Hmono.
  - intros pid ticker transaction_type shares price_per_share
      transaction_date notes.
    destruct (add_transaction_cases pid ticker transaction_type shares
      price_per_share transaction_date notes st)
      as [->|(Hty & Hs & Hp & He & ->)]; [by repeat split|].
    repeat split; simpl; [done| |done| |done].
    + rewrite fmap_app. by apply NoDup_snoc_fresh.
    + apply Forall_app. split; [done|]. apply Forall_singleton.
      repeat split; simpl; [done..|apply upper_idemp|done].
  - intros get_current_price now pid.
    destruct (save_portfolio_snapshot_cases get_current_price now st pid)
      as [[_ ->]|[He (perf & _ & ->)]]; [by repeat split|].
    repeat split; simpl; [done..| |done|].
    + rewrite fmap_app. by apply NoDup_snoc_fresh.
    + apply Forall_app. split; [done|]. by apply Forall_singleton.
Qed.

Lemma valid_store_kept_witness :
  valid_store
    (add_transaction 1 "aapl" "Buy" (qc 10) (qc 150) 5 no_notes
       sample_empty).1.2.
Proof.
  apply (valid_store_kept sample_empty).
  apply (valid_store_kept empty_store). repeat split; constructor.
Defined.

(** ** Portfolios do not see each other *)

Lemma filter_portfolio_nil (l : list Transaction) pid :
  (∀ t, t ∈ l → portfolio_id t ≠ pid) →
  filter (λ t, portfolio_id t = pid) l = [].
Proof.
  induction l as [|t l IH]; intros Hno; [done|].
  rewrite filter_cons_False by (apply Hno; left).
  apply IH. intros t' Hin. apply Hno. by right.
Qed.

Lemma get_portfolio_performance_ext get_current_price st1 st2 pid :
  get_portfolio_holdings st1 pid = get_portfolio_holdings st2 pid →
  get_portfolio_performance get_current_price st1 pid
  = get_portfolio_performance get_current_price st2 pid.
Proof. intros Heq. unfold get_portfolio_performance. by rewrite Heq. Qed.

(** X4. A transaction added to one portfolio changes neither the holdings
    nor the performance of any other portfolio. *)
Theorem add_transaction_other_portfolio (pid pid' : Z)
    (ticker transaction_type : string) (shares price_per_share : Qc)
    (transaction_date : Z) (notes : string) (st : Store) :
  pid ≠ pid' →
  let st' := (add_transaction pid' ticker transaction_type shares
                price_per_share transaction_date notes st).1.2 in
  get_portfolio_holdings st' pid = get_portfolio_holdings st pid ∧
  ∀ get_current_price,
    get_portfolio_performance get_current_price st' pid
    = get_portfolio_performance get_current_price st pid.
Proof.
  intros Hne st'.
  assert (get_portfolio_holdings st' pid = get_portfolio_holdings st pid)
    as Hsame.
  { unfold st'.
    destruct (add_transaction_cases pid' ticker transaction_type shares
      price_per_share transaction_date notes st) as [->|(_ & _ & _ & _ & ->)];
      [done|].
    apply get_portfolio_holdings_ext; [done|].
    unfold query_transactions. simpl. rewrite filter_app.
    rewrite (filter_singleton_False _ _ []) by (simpl; congruence).
    by rewrite app_nil_r. }
  split; [done|]. intros price. by apply get_portfolio_performance_ext.
Qed.

(** A buy in the first portfolio of the sample of two; the second
    portfolio holds AAPL and GOOG. *)
Lemma add_transaction_other_portfolio_witness :
  let st' := (add_transaction 1 "MSFT" "buy" (qc 2) (qc 400) 11 no_notes
                sample_two).1.2 in
  get_portfolio_holdings st' 2 = get_portfolio_holdings sample_two 2 ∧
  ∀ get_current_price,
    get_portfolio_performance get_current_price st' 2
    = get_portfolio_performance get_current_price sample_two 2.
Proof.
  apply (add_transaction_other_portfolio 2 1 "MSFT" "buy" (qc 2) (qc 400) 11
           no_notes sample_two).
  discriminate.
Defined.

Example sample_two_holdings :
  (λ df, row_ticker <$> rows df) <$> (get_portfolio_holdings sample_two 2).1
  = Some ["GOOG"; "AAPL"].
Proof. vm_compute. reflexivity. Qed.

(** X5. In a well-formed store, the portfolio that [create_portfolio]
    makes has no holdings: [get_portfolio_holdings] returns for its id the
    frame with the four columns and no row. For every other id the holdings
    are what they were before. *)
Theorem create_portfolio_holdings (now : Z) (name : string) (st : Store) :
  valid_store st →
  ∃ key,
    (create_portfolio now name st).1.1 = Some key ∧
    get_portfolio_holdings (create_portfolio now name st).1.2 key
    = (Some (mkDataFrame holdings_columns []), [NoTransactionsFound key]) ∧
    ∀ pid, pid ≠ key →
      get_portfolio_holdings (create_portfolio now name st).1.2 pid
      = get_portfolio_holdings st pid.
Proof.
  intros (_ & _ & _ & Htx & _).
  exists (next_key (portfolio_key <$> portfolios st)).
  pose proof (next_key_fresh (portfolio_key <$> portfolios st)) as Hfresh.
  unfold create_portfolio. out_simpl. split_and!; [done| |].
  - pose proof (query_portfolio_app_fresh st
      (mkPortfolio (next_key (portfolio_key <$> portfolios st)) name now)
      Hfresh) as Hq. cbn [portfolio_key] in Hq.
    unfold get_portfolio_holdings. rewrite Hq.
    unfold query_transactions. simpl. rewrite filter_portfolio_nil; [done|].
    intros t Hin Hpid. rewrite Forall_forall in Htx.
    destruct (Htx t Hin) as (_ & _ & _ & _ & He). by rewrite Hpid in He.
  - intros pid Hne. apply get_portfolio_holdings_ext; [|done].
    unfold portfolio_exists. simpl.
    rewrite fmap_app, elem_of_app. simpl. rewrite list_elem_of_singleton.
    split; [intros [?|?]; done | by left].
Qed.

Lemma sample_store_valid : valid_store sample_store.
Proof.
  assert (portfolio_exists sample_store 1) as He
    by (unfold portfolio_exists; vm_compute; left).
  split_and!.
  - apply (bool_decide_unpack _). vm_compute. exact I.
  - apply (bool_decide_unpack _). vm_compute. exact I.
  - constructor.
  - change (transactions sample_store) with
      [mkTransaction 1 1 "AAPL" "buy" (qc 10) (qc 150) 5 no_notes;
       mkTransaction 2 1 "AAPL" "buy" (qc 5) (qc 160) 7 no_notes;
       mkTransaction 3 1 "MSFT" "buy" (qc 8) (qc 350) 6 no_notes;
       mkTransaction 4 1 "AAPL" "sell" (qc 4) (qc 320) 9 no_notes].
    repeat (constructor;
            [split_and!; simpl;
             [first [by left | right; by left]
             |vm_compute; reflexivity|vm_compute; reflexivity
             |reflexivity|exact He]|]).
    constructor.
  - constructor.
Defined.

(** A second portfolio in the sample store, which has one portfolio with
    four transactions and two rows of holdings. *)
Lemma create_portfolio_holdings_witness :
  ∃ key,
    (create_portfolio 3 "Second" sample_store).1.1 = Some key ∧
    get_portfolio_holdings (create_portfolio 3 "Second" sample_store).1.2 key
    = (Some (mkDataFrame holdings_columns []), [NoTransactionsFound key]) ∧
    ∀ pid, pid ≠ key →
      get_portfolio_holdings (create_portfolio 3 "Second" sample_store).1.2 pid
      = get_portfolio_holdings sample_store pid.
Proof.
  apply (create_portfolio_holdings 3 "Second" sample_store).
  apply sample_store_valid.
Defined.

(** X6. After the first transaction of a portfolio, a buy of [q] shares at
    price [p], the holdings are one row: the upper-cased ticker, [q] shares,
    total cost [q * p] and, as average cost, that cost over the shares. No
    message is printed. *)
Theorem first_buy_holdings (pid : Z) (ticker transaction_type : string)
    (q p : Qc) (transaction_date : Z) (notes : string) (st : Store) :
  portfolio_exists st pid →
  (∀ t, t ∈ transactions st → portfolio_id t ≠ pid) →
  lower transaction_type = "buy" →
  (0 < q)%Qc → (0 < p)%Qc →
  get_portfolio_holdings
    (add_transaction pid ticker transaction_type q p transaction_date notes
       st).1.2 pid
  = (Some (mkDataFrame holdings_columns
             [mkHoldingRow (upper ticker) q (q * p / q) (q * p)]), []).
Proof.
  intros He Hnone Hty Hq Hp.
  rewrite add_transaction_ok by (rewrite ?Hty; done || left).
  destruct (query_portfolio_Some st pid He) as [pf Hpf].
  unfold get_portfolio_holdings, query_portfolio. simpl.
  unfold query_portfolio in Hpf. rewrite Hpf.
  unfold query_transactions. simpl.
  rewrite filter_app, filter_portfolio_nil by done.
  rewrite (filter_singleton_True _ _ []) by done. simpl.
  unfold order_by_date. simpl. rewrite Hty. out_simpl.
  unfold process_transaction, ensure_position. simpl. out_simpl.
  unfold holdings_frame. simpl.
  rewrite decide_True by done. unfold position_of. cbn [dict_get].
  rewrite decide_True by done.
  cbn [default total_shares total_cost new_position omap list_omap].
  unfold holding_record. cbn [total_shares total_cost].
  by rewrite !Qcplus_0_l, !decide_True by done.
Qed.

Lemma first_buy_holdings_witness :
  get_portfolio_holdings
    (add_transaction 1 "tsla" "BUY" (qc 5) (qc 200) 10 no_notes
       sample_empty).1.2 1
  = (Some (mkDataFrame holdings_columns
             [mkHoldingRow "TSLA" (qc 5) (qc 5 * qc 200 / qc 5)
                (qc 5 * qc 200)]), []).
Proof.
  apply (first_buy_holdings 1 "tsla" "BUY" (qc 5) (qc 200) 10 no_notes
           sample_empty).
  - unfold portfolio_exists. vm_compute. left.
  - vm_compute. intros t H. inversion H.
  - reflexivity.
  - vm_compute. reflexivity.
  - vm_compute. reflexivity.
Defined.

(** ** Tickers do not see each other *)

Lemma update_position_trade p t1 t2 :
  trade t1 = trade t2 → update_position p t1 = update_position p t2.
Proof.
  unfold trade. intros [= Hty Hs Hp]. unfold update_position.
  by rewrite Hty, Hs, Hp.
Qed.

Lemma foldl_update_position_trade l1 l2 p :
  trade <$> l1 = trade <$> l2 →
  foldl update_position p l1 = foldl update_position p l2.
Proof.
  revert l2 p. induction l1 as [|t1 l1 IH]; intros [|t2 l2] p; csimpl;
    try done.
  intros Heq.
  assert (trade t1 = trade t2) as Ht by congruence.
  assert (trade <$> l1 = trade <$> l2) as Hl by congruence.
  rewrite (update_position_trade p t1 t2) by done. by apply IH.
Qed.

(** X7. The rows of the holdings frame for a ticker depend only on the
    types, the shares and the prices of the transactions of that ticker, in
    the order they are read: two portfolios that agree on these have the
    same rows for the ticker, whatever their other transactions and
    whatever the keys and the dates. *)
Theorem holdings_of_ticker_local (st1 st2 : Store) (pid1 pid2 : Z)
    (t : string) :
  portfolio_exists st1 pid1 →
  portfolio_exists st2 pid2 →
  trade <$> filter (λ txn, ticker txn = t) (query_transactions st1 pid1)
  = trade <$> filter (λ txn, ticker txn = t) (query_transactions st2 pid2) →
  ∃ df1 df2,
    (get_portfolio_holdings st1 pid1).1 = Some df1 ∧
    (get_portfolio_holdings st2 pid2).1 = Some df2 ∧
    ∀ r, row_ticker r = t → r ∈ rows df1 ↔ r ∈ rows df2.
Proof.
  intros He1 He2 Hsame.
  destruct (get_portfolio_holdings_found st1 pid1 He1) as (df1 & Hdf1 & Hr1).
  destruct (get_portfolio_holdings_found st2 pid2 He2) as (df2 & Hdf2 & Hr2).
  exists df1, df2. split_and!; [done..|].
  intros r Ht. rewrite Hr1, Hr2.
  rewrite !holding_rows_elem by apply final_holdings_NoDup.
  unfold final_holdings. rewrite !process_transactions_position, Ht.
  by rewrite (foldl_update_position_trade _ _ _ Hsame).
Qed.

(** The two portfolios of the sample of two have the same transactions of
    AAPL, with other keys and dates, beside MSFT in one and GOOG in the
    other. *)
Lemma holdings_of_ticker_local_witness :
  ∃ df1 df2,
    (get_portfolio_holdings sample_two 1).1 = Some df1 ∧
    (get_portfolio_holdings sample_two 2).1 = Some df2 ∧
    ∀ r, row_ticker r = "AAPL" → r ∈ rows df1 ↔ r ∈ rows df2.
Proof.
  apply (holdings_of_ticker_local sample_two sample_two 1 2 "AAPL").
  - unfold portfolio_exists. vm_compute. left.
  - unfold portfolio_exists. vm_compute. right. left.
  - reflexivity.
Defined.

(** ** The order of the transactions *)

Lemma insert_by_date_sorted t l :
  StronglySorted by_date l → StronglySorted by_date (insert_by_date t l).
Proof.
  induction 1 as [|u l Hl IH Hu]; simpl; [repeat constructor|].
  case_decide as Hlt.
  - constructor; [by constructor|]. constructor; [unfold by_date; lia|].
    eapply Forall_impl; [done|]. unfold by_date. intros; lia.
  - constructor; [done|].
    rewrite Forall_forall. intros x Hx.
    rewrite insert_by_date_perm in Hx.
    apply elem_of_cons in Hx as [->|Hx]; [unfold by_date; lia|].
    rewrite Forall_forall in Hu. by apply Hu.
Qed.

Lemma order_by_date_sorted l : StronglySorted by_date (order_by_date l).
Proof.
  unfold order_by_date. induction (reverse l) as [|t r IH]; simpl.
  - constructor.
  - by apply insert_by_date_sorted.
Qed.

(** X8. The transactions that [get_portfolio_holdings] folds are those of
    the portfolio, each once, in ascending order of date, in whatever order
    they were stored. *)
Theorem query_transactions_sorted (st : Store) (pid : Z) :
  StronglySorted
    (λ a b, (transaction_date a ≤ transaction_date b)%Z)
    (query_transactions st pid) ∧
  query_transactions st pid
    ≡ₚ filter (λ t, portfolio_id t = pid) (transactions st).
Proof.
  split; [apply order_by_date_sorted | apply order_by_date_perm].
Qed.

Lemma process_transaction_entry h t1 t2 :
  entry t1 = entry t2 → process_transaction h t1 = process_transaction h t2.
Proof.
  unfold entry. intros [= Hk Hty Hs Hp _]. unfold process_transaction.
  by rewrite Hk, Hty, Hs, Hp.
Qed.

Lemma process_transactions_entry l1 l2 h :
  entry <$> l1 = entry <$> l2 →
  process_transactions h l1 = process_transactions h l2.
Proof.
  revert l2 h. induction l1 as [|t1 l1 IH]; intros [|t2 l2] h; csimpl;
    try done.
  intros Heq.
  assert (entry t1 = entry t2) as Ht by congruence.
  assert (entry <$> l1 = entry <$> l2) as Hl by congruence.
  rewrite (process_transaction_entry h t1 t2) by done.
  unfold mbind, out_bind. by rewrite (IH l2 _ Hl).
Qed.

Lemma entries_sorted l :
  StronglySorted by_date l →
  StronglySorted (λ e1 e2 : string * string * Qc * Qc * Z, (e1.2 ≤ e2.2)%Z)
    (entry <$> l).
Proof.
  induction 1 as [|t l Hl IH Ht]; csimpl; constructor; [done|].
  apply Forall_fmap. eapply Forall_impl; [done|]. by intros.
Qed.

Lemma order_by_date_entries l1 l2 :
  entry <$> l1 ≡ₚ entry <$> l2 →
  NoDup (transaction_date <$> l1) →
  entry <$> order_by_date l1 = entry <$> order_by_date l2.
Proof.
  intros Hperm Hnd.
  apply (StronglySorted_unique_strong
           (λ e1 e2 : string * string * Qc * Qc * Z, (e1.2 ≤ e2.2)%Z));
    [|apply entries_sorted, order_by_date_sorted..
     |by rewrite !order_by_date_perm].
  intros x1 x2 Hx1 Hx2 H12 H21.
  rewrite order_by_date_perm in Hx1. rewrite order_by_date_perm in Hx2.
  rewrite <- Hperm in Hx2.
  assert (x1.2 = x2.2) as Hd by lia.
  apply list_elem_of_lookup_1 in Hx1 as [i Hi].
  apply list_elem_of_lookup_1 in Hx2 as [j Hj].
  assert (i = j) as ->; [|congruence].
  assert (transaction_date <$> l1 = snd <$> (entry <$> l1)) as Hdates
    by (rewrite <- list_fmap_compose; done).
  rewrite Hdates in Hnd. eapply NoDup_lookup; [done|..].
  - by rewrite list_lookup_fmap, Hi.
  - by rewrite list_lookup_fmap, Hj, Hd.
Qed.

Lemma get_portfolio_holdings_entries st1 st2 pid :
  (portfolio_exists st1 pid ↔ portfolio_exists st2 pid) →
  entry <$> query_transactions st1 pid = entry <$> query_transactions st2 pid →
  get_portfolio_holdings st1 pid = get_portfolio_holdings st2 pid.
Proof.
  intros Hex Hent. unfold get_portfolio_holdings.
  destruct (decide (portfolio_exists st1 pid)) as [He|Hno].
  - destruct (query_portfolio_Some st1 pid He) as [p1 ->].
    destruct (query_portfolio_Some st2 pid (proj1 Hex He)) as [p2 ->].
    destruct (query_transactions st1 pid) as [|t1 r1],
             (query_transactions st2 pid) as [|t2 r2]; try done.
    by rewrite (process_transactions_entry _ _ [] Hent).
  - rewrite (proj2 (query_portfolio_None st1 pid) Hno).
    rewrite (proj2 (query_portfolio_None st2 pid)); [done|].
    by rewrite <- Hex.
Qed.

(** X9. When the transactions of a portfolio have different dates, its
    holdings do not depend on the order in which they were entered: two
    stores in which the same transactions were entered for the portfolio
    (the same tickers, types, shares, prices and dates; the keys follow the
    order of entry), in any order, give the same result and the same
    messages. *)
Theorem holdings_entry_order (st1 st2 : Store) (pid : Z) :
  (portfolio_exists st1 pid ↔ portfolio_exists st2 pid) →
  entry <$> filter (λ t, portfolio_id t = pid) (transactions st1)
    ≡ₚ entry <$> filter (λ t, portfolio_id t = pid) (transactions st2) →
  NoDup (transaction_date
           <$> filter (λ t, portfolio_id t = pid) (transactions st1)) →
  get_portfolio_holdings st1 pid = get_portfolio_holdings st2 pid.
Proof.
  intros Hex Hperm Hnd. apply get_portfolio_holdings_entries; [done|].
  by apply order_by_date_entries.
Qed.

(** Three transactions entered by [add_transaction] first to last, and
    last to first. *)
Lemma holdings_entry_order_witness :
  get_portfolio_holdings entered_forward 1
  = get_portfolio_holdings entered_backward 1.
Proof.
  apply (holdings_entry_order entered_forward entered_backward 1).
  - split; intros _; unfold portfolio_exists; vm_compute; left.
  - change (entry <$> filter (λ t, portfolio_id t = 1)
                        (transactions entered_backward))
      with (reverse (entry <$> filter (λ t, portfolio_id t = 1)
                                 (transactions entered_forward))).
    symmetry. apply reverse_Permutation.
  - apply (bool_decide_unpack _). vm_compute. exact I.
Defined.

Example entered_keys :
  (λ t, (transaction_key t, transaction_date t))
    <$> transactions entered_forward = [(1, 5); (2, 7); (3, 9)] ∧
  (λ t, (transaction_key t, transaction_date t))
    <$> transactions entered_backward = [(1, 9); (2, 7); (3, 5)].
Proof. split; reflexivity. Qed.

(** ** Selling everything, and more *)

Lemma filter_all {A} (P : A → Prop) `{!∀ x, Decision (P x)} (l : list A) :
  (∀ x, x ∈ l → P x) → filter P l = l.
Proof.
  induction l as [|x l IH]; intros Hall; [done|].
  rewrite filter_cons_True by (apply Hall; left).
  f_equal. apply IH. intros y Hy. apply Hall. by right.
Qed.

Lemma process_transactions_own txns h k :
  (∀ txn, txn ∈ txns → ticker txn = k) →
  position_of (process_transactions h txns).1 k
  = foldl update_position (position_of h k) txns.
Proof.
  intros Hown. rewrite process_transactions_position.
  by rewrite filter_all.
Qed.

Lemma update_position_sell p s :
  transaction_type s = "sell" →
  update_position p s
  = if decide (0 < total_shares p)%Qc
    then mkPosition (total_shares p - shares s)
           (total_cost p - shares s * (total_cost p / total_shares p))
    else p.
Proof. intros Hs. unfold update_position. by rewrite Hs. Qed.

(** X11. When the last transaction of a ticker is a sell of at least the
    shares then held, the ticker has no row in the holdings frame, whatever
    came before. *)
Theorem holdings_after_oversell (st : Store) (pid : Z) (t : string)
    (pre : list Transaction) (s : Transaction) :
  portfolio_exists st pid →
  filter (λ txn, ticker txn = t) (query_transactions st pid) = pre ++ [s] →
  transaction_type s = "sell" →
  (total_shares (position_of (process_transactions [] pre).1 t)
   ≤ shares s)%Qc →
  ∃ df, (get_portfolio_holdings st pid).1 = Some df ∧
        t ∉ row_ticker <$> rows df.
Proof.
  intros He Hfilter Hs Hle.
  destruct (get_portfolio_holdings_found st pid He) as (df & Hdf & Hrows).
  exists df. split; [done|].
  rewrite Hrows, holding_rows_ticker by apply final_holdings_NoDup.
  unfold final_holdings.
  rewrite process_transactions_position, Hfilter, foldl_snoc.
  rewrite process_transactions_own in Hle.
  2: { intros txn Hin.
       assert (txn ∈ pre ++ [s]) as Hin' by (apply elem_of_app; by left).
       rewrite <- Hfilter in Hin'.
       by apply list_elem_of_filter in Hin' as [? _]. }
  change (position_of [] t) with new_position in *.
  set (p := foldl update_position new_position pre) in *.
  rewrite update_position_sell by done.
  case_decide as Hpos; simpl; [|done].
  apply Qcle_not_lt. apply Qcle_minus_iff in Hle.
  apply Qcle_minus_iff. rewrite Qcplus_0_l.
  replace (- (total_shares p - shares s))%Qc
    with (shares s + - total_shares p)%Qc by ring. done.
Qed.

(** The sample, then a sell of 20 AAPL with 11 held. *)
Lemma holdings_after_oversell_witness :
  let st := (add_transaction 1 "AAPL" "sell" (qc 20) (qc 100) 12 no_notes
               sample_store).1.2 in
  ∃ df, (get_portfolio_holdings st 1).1 = Some df ∧
        "AAPL" ∉ row_ticker <$> rows df.
Proof.
  apply (holdings_after_oversell _ 1 "AAPL"
           [mkTransaction 1 1 "AAPL" "buy" (qc 10) (qc 150) 5 no_notes;
            mkTransaction 2 1 "AAPL" "buy" (qc 5) (qc 160) 7 no_notes;
            mkTransaction 4 1 "AAPL" "sell" (qc 4) (qc 320) 9 no_notes]
           (mkTransaction 5 1 "AAPL" "sell" (qc 20) (qc 100) 12 no_notes)).
  - unfold portfolio_exists. vm_compute. left.
  - reflexivity.
  - reflexivity.
  - vm_compute. discriminate.
Defined.

(** ** The price of a sell *)

Lemma insert_by_date_fmap (g : Transaction → Transaction) t l :
  (∀ x, transaction_date (g x) = transaction_date x) →
  insert_by_date (g t) (g <$> l) = g <$> insert_by_date t l.
Proof.
  intros Hdate. induction l as [|u l IH]; csimpl; [done|].
  rewrite !Hdate. case_decide; csimpl; [done|]. by rewrite IH.
Qed.

Lemma order_by_date_fmap (g : Transaction → Transaction)
    (l : list Transaction) :
  (∀ x, transaction_date (g x) = transaction_date x) →
  order_by_date (g <$> l) = g <$> order_by_date l.
Proof.
  intros Hdate. unfold order_by_date. rewrite <- fmap_reverse.
  induction (reverse l) as [|t r IH]; csimpl; [done|].
  by rewrite IH, insert_by_date_fmap.
Qed.

Lemma filter_portfolio_fmap (g : Transaction → Transaction) pid
    (l : list Transaction) :
  (∀ x, portfolio_id (g x) = portfolio_id x) →
  filter (λ t, portfolio_id t = pid) (g <$> l)
  = g <$> filter (λ t, portfolio_id t = pid) l.
Proof.
  intros Hpid. induction l as [|u l IH]; csimpl; [done|].
  rewrite !filter_cons, Hpid, IH. by case_decide.
Qed.

Lemma process_transaction_reprice f h txn :
  process_transaction h (reprice_sells f txn) = process_transaction h txn.
Proof.
  unfold reprice_sells. case_decide as Hs; [|done].
  unfold process_transaction, with_price. simpl. by rewrite Hs.
Qed.

Lemma process_transactions_reprice f txns h :
  process_transactions h (reprice_sells f <$> txns)
  = process_transactions h txns.
Proof.
  revert h. induction txns as [|txn rest IH]; intros h; csimpl; [done|].
  rewrite process_transaction_reprice. out_simpl. by rewrite IH.
Qed.

Lemma reprice_sells_date f x :
  transaction_date (reprice_sells f x) = transaction_date x.
Proof. unfold reprice_sells. by case_decide. Qed.

Lemma reprice_sells_portfolio f x :
  portfolio_id (reprice_sells f x) = portfolio_id x.
Proof. unfold reprice_sells. by case_decide. Qed.

(** X13. The price of a sell is stored and never read: with other prices
    on the sells of the store, whatever they are, [get_portfolio_holdings]
    returns the same frame and prints the same messages. *)
Theorem holdings_ignore_sell_price (f : Transaction → Qc) (st : Store)
    (pid : Z) :
  get_portfolio_holdings
    (mkStore (portfolios st) (reprice_sells f <$> transactions st)
       (snapshots st)) pid
  = get_portfolio_holdings st pid.
Proof.
  unfold get_portfolio_holdings, query_portfolio, query_transactions. simpl.
  rewrite filter_portfolio_fmap by apply reprice_sells_portfolio.
  rewrite order_by_date_fmap by apply reprice_sells_date.
  destruct (head _); [|done].
  destruct (order_by_date _) as [|txn rest]; [done|].
  rewrite fmap_cons.
  by rewrite process_transaction_reprice, process_transactions_reprice.
Qed.

(** ** The aggregates and the rows of the performance *)

Section PerformanceTotals.

Variable get_current_price : string → option Qc.

Lemma get_portfolio_performance_cases st pid :
  (get_portfolio_performance get_current_price st pid).1
    = Some no_performance ∨
  ∃ df acc,
    (get_portfolio_holdings st pid).1 = Some df ∧
    acc = (evaluate_rows get_current_price (mkRunning [] 0 0) (rows df)).1 ∧
    (get_portfolio_performance get_current_price st pid).1
    = Some (mkPerformance
              (from_records performance_columns (performance_data acc))
              (running_total_cost acc) (running_current_value acc)
              (running_current_value acc - running_total_cost acc)
              (if decide (0 < running_total_cost acc)%Qc
               then ((running_current_value acc - running_total_cost acc)
                     / running_total_cost acc * hundred)%Qc
               else 0%Qc)).
Proof.
  unfold get_portfolio_performance.
  destruct (get_portfolio_holdings st pid) as [[df|] log]; out_simpl;
    [|by left].
  destruct (empty df); [by left|]. right. by eexists _, _.
Qed.

Lemma evaluate_rows_running l acc :
  running_total_cost acc
    = running_sum (perf_total_cost <$> performance_data acc) →
  running_current_value acc
    = running_sum (perf_current_value <$> performance_data acc) →
  let acc' := (evaluate_rows get_current_price acc l).1 in
  running_total_cost acc'
    = running_sum (perf_total_cost <$> performance_data acc') ∧
  running_current_value acc'
    = running_sum (perf_current_value <$> performance_data acc').
Proof.
  revert acc. induction l as [|row l IH]; intros acc Hcost Hvalue; [done|].
  cbn [evaluate_rows]. unfold mbind, out_bind. cbn [fst snd]. apply IH;
    unfold evaluate_row;
    (destruct (get_current_price (row_ticker row)); [|done]);
    unfold mret, out_ret;
    cbn [fst performance_data running_total_cost running_current_value];
    unfold running_sum; rewrite fmap_app, foldl_app; simpl;
    [by rewrite Hcost | by rewrite Hvalue].
Qed.

(** X14. The aggregates of the performance are the sums over the rows of
    its positions frame, added up from 0 in the order of the rows: the
    total cost is the sum of the costs of the rows, the total current value
    the sum of their values, and the total gain the second sum less the
    first, whatever the portfolio and the prices. *)
Theorem performance_totals (st : Store) (pid : Z) :
  ∃ perf,
    (get_portfolio_performance get_current_price st pid).1 = Some perf ∧
    portfolio_total_cost perf
      = running_sum (perf_total_cost <$> rows (positions perf)) ∧
    total_current_value perf
      = running_sum (perf_current_value <$> rows (positions perf)) ∧
    total_gain_loss_dollar perf
      = (running_sum (perf_current_value <$> rows (positions perf))
         - running_sum (perf_total_cost <$> rows (positions perf)))%Qc.
Proof.
  destruct (get_portfolio_performance_cases st pid)
    as [->|(df & acc & _ & Hacc & ->)].
  - eexists. split; [done|]. simpl. split_and!; [done..|]. ring.
  - eexists. split; [done|]. simpl. rewrite rows_from_records.
    destruct (evaluate_rows_running (rows df) (mkRunning [] 0 0))
      as [Hcost Hvalue]; [done..|].
    rewrite <- Hacc in Hcost, Hvalue. by rewrite <- Hcost, <- Hvalue.
Qed.

(** X15. When no row of the holdings frame has a price, the performance is
    the one of a portfolio without holdings, no position and 0 for every
    aggregate, and the snapshot that [save_portfolio_snapshot] then stores
    has the value 0. *)
Theorem performance_without_prices (now : Z) (st : Store) (pid : Z)
    (df : DataFrame HoldingRow) :
  (get_portfolio_holdings st pid).1 = Some df →
  (∀ r, r ∈ rows df → get_current_price (row_ticker r) = None) →
  (get_portfolio_performance get_current_price st pid).1
  = Some no_performance ∧
  (save_portfolio_snapshot get_current_price now st pid).1
  = (true,
     mkStore (portfolios st) (transactions st)
       (snapshots st ++
          [mkPortfolioSnapshot (next_key (snapshot_key <$> snapshots st))
             pid 0 now])).
Proof.
  intros Hdf Hnone.
  assert ((get_portfolio_performance get_current_price st pid).1
          = Some no_performance) as Hzero.
  { destruct (get_portfolio_performance_cases st pid)
      as [->|(df' & acc & Hdf' & Hacc & ->)]; [done|].
    rewrite Hdf in Hdf'. injection Hdf' as <-.
    destruct (evaluate_rows_spec get_current_price (rows df)
                (mkRunning [] 0 0)) as (new & Hdata & Hnew & Hcost & Hvalue).
    rewrite <- Hacc in Hdata, Hcost, Hvalue.
    assert (priced get_current_price (rows df) = []) as Hp.
    { unfold priced. clear -Hnone. induction (rows df) as [|r l IH]; [done|].
      rewrite filter_cons_False.
      - apply IH. intros r' Hr'. apply Hnone. by right.
      - rewrite (Hnone r) by left. by intros [? ?]. }
    rewrite Hp in Hnew, Hcost, Hvalue. inversion Hnew; subst new.
    simpl in Hdata, Hcost, Hvalue. rewrite Qcplus_0_l in Hcost, Hvalue.
    rewrite Hdata, Hcost, Hvalue. unfold no_performance. simpl.
    replace (0 - 0)%Qc with 0%Qc by ring. done. }
  split; [done|].
  destruct (save_portfolio_snapshot_cases get_current_price now st pid)
    as [[Hno _]|[_ (perf & Hperf & ->)]].
  - by rewrite get_portfolio_holdings_None in Hdf.
  - rewrite Hzero in Hperf. by injection Hperf as <-.
Qed.

End PerformanceTotals.

Lemma performance_without_prices_witness :
  (get_portfolio_performance (λ _, None) sample_store 1).1
  = Some no_performance ∧
  (save_portfolio_snapshot (λ _, None) 77 sample_store 1).1
  = (true,
     mkStore (portfolios sample_store) (transactions sample_store)
       (snapshots sample_store ++
          [mkPortfolioSnapshot
             (next_key (snapshot_key <$> snapshots sample_store)) 1 0 77])).
Proof.
  apply (performance_without_prices (λ _, None) 77 sample_store 1
           sample_frame).
  - vm_compute. reflexivity.
  - done.
Defined.

(** ** [save_portfolio_snapshot] *)

(** X16. [save_portfolio_snapshot] returns [True] exactly when the
    portfolio exists. It then adds one snapshot, with a new key, the id of
    the portfolio, the total current value of its performance and the time
    of the call; the portfolios and the transactions are never changed. *)
Theorem snapshot_saved (get_current_price : string → option Qc) (now : Z)
    (st : Store) (pid : Z) :
  ∃ ok st',
    (save_portfolio_snapshot get_current_price now st pid).1 = (ok, st') ∧
    (ok = true ↔ portfolio_exists st pid) ∧
    (portfolio_exists st pid →
     ∃ perf key,
       (get_portfolio_performance get_current_price st pid).1 = Some perf ∧
       (key ∉ snapshot_key <$> snapshots st) ∧
       snapshots st'
       = snapshots st ++
           [mkPortfolioSnapshot key pid (total_current_value perf) now]) ∧
    portfolios st' = portfolios st ∧
    transactions st' = transactions st.
Proof.
  destruct (save_portfolio_snapshot_cases get_current_price now st pid)
    as [[Hno ->]|[He (perf & Hperf & ->)]]; eexists _, _; (split; [done|]).
  - by split_and!.
  - split_and!; try done. intros _. exists perf. eexists.
    split_and!; [done|apply next_key_fresh|done].
Qed.

(** X17. Saving a snapshot changes nothing of what the accountant and the
    evaluator read: the holdings and the performance of every portfolio are
    afterwards what they were before. *)
Theorem snapshot_keeps_holdings (get_current_price : string → option Qc)
    (now : Z) (st : Store) (pid pid' : Z) :
  let st' := (save_portfolio_snapshot get_current_price now st pid).1.2 in
  get_portfolio_holdings st' pid' = get_portfolio_holdings st pid' ∧
  ∀ price, get_portfolio_performance price st' pid'
           = get_portfolio_performance price st pid'.
Proof.
  intros st'.
  assert (get_portfolio_holdings st' pid' = get_portfolio_holdings st pid')
    as Hsame.
  { unfold st'.
    destruct (save_portfolio_snapshot_cases get_current_price now st pid)
      as [[_ ->]|[_ (perf & _ & ->)]]; [done|].
    by apply get_portfolio_holdings_ext. }
  split; [done|]. intros price. by apply get_portfolio_performance_ext.
Qed.

(** ** A frame without columns *)

(** X19. When a portfolio has transactions and no ticker is left with
    positive shares, [get_portfolio_holdings] returns a frame that has no
    row and no column either, unlike the frame with the four columns it
    returns when there is no transaction. *)
Theorem holdings_all_closed (st : Store) (pid : Z) :
  portfolio_exists st pid →
  query_transactions st pid ≠ [] →
  (∀ t, ¬ (0 < total_shares (position_of (final_holdings st pid) t))%Qc) →
  (get_portfolio_holdings st pid).1 = Some (mkDataFrame [] []).
Proof.
  intros [p Hp]%query_portfolio_Some Hne Hclosed.
  assert (omap holding_record (final_holdings st pid) = []) as Hnil.
  { apply elem_of_nil_inv. intros r Hr.
    apply holding_rows_elem in Hr as [Hpos _]; [|apply final_holdings_NoDup].
    by apply Hclosed in Hpos. }
  unfold get_portfolio_holdings. rewrite Hp.
  unfold final_holdings in Hnil.
  destruct (query_transactions st pid) as [|txn rest]; [done|].
  out_simpl. unfold holdings_frame. simpl in Hnil. by rewrite Hnil.
Qed.

Lemma holdings_all_closed_witness :
  (get_portfolio_holdings liquidated_store 1).1 = Some (mkDataFrame [] []).
Proof.
  apply (holdings_all_closed liquidated_store 1).
  - unfold portfolio_exists. vm_compute. left.
  - discriminate.
  - intros t.
    change (final_holdings liquidated_store 1)
      with [("TSLA", mkPosition (qc 5 - qc 5)
                       (qc 5 * qc 200 - qc 5 * (qc 5 * qc 200 / qc 5)))].
    unfold position_of. cbn [dict_get]. case_decide; vm_compute; discriminate.
Defined.

(** ** The snapshots listed *)

Lemma insert_snapshot_elem x s l :
  x ∈ insert_snapshot s l ↔ x = s ∨ x ∈ l.
Proof.
  induction l as [|u l IH]; simpl.
  - rewrite list_elem_of_singleton, elem_of_nil. tauto.
  - case_decide.
    + by rewrite elem_of_cons.
    + rewrite !elem_of_cons, IH. tauto.
Qed.

Lemma order_snapshots_elem x (r : list PortfolioSnapshot) :
  x ∈ foldr insert_snapshot [] r ↔ x ∈ r.
Proof.
  induction r as [|s r IH]; simpl; [done|].
  by rewrite insert_snapshot_elem, elem_of_cons, IH.
Qed.

Lemma insert_snapshot_last s l :
  (∀ u, u ∈ l → (snapshot_date u ≤ snapshot_date s)%Z) →
  insert_snapshot s l = l ++ [s].
Proof.
  induction l as [|u l IH]; intros Hle; simpl; [done|].
  pose proof (Hle u ltac:(left)) as Hu.
  rewrite decide_False by lia.
  rewrite IH; [done|]. intros u' Hu'. apply Hle. by right.
Qed.

(** X20. When a snapshot is saved for a portfolio at a time not earlier
    than the dates of the snapshots it has, the list of snapshots charted
    for the portfolio is the list of before followed by the new snapshot,
    and the lists of the other portfolios are as before. *)
Theorem snapshot_listed (get_current_price : string → option Qc) (now : Z)
    (st : Store) (pid : Z) :
  portfolio_exists st pid →
  (∀ s, s ∈ snapshots st → snapshot_portfolio_id s = pid →
        (snapshot_date s ≤ now)%Z) →
  ∃ perf,
    (get_portfolio_performance get_current_price st pid).1 = Some perf ∧
    query_snapshots
      (save_portfolio_snapshot get_current_price now st pid).1.2 pid
    = query_snapshots st pid ++
        [mkPortfolioSnapshot (next_key (snapshot_key <$> snapshots st)) pid
           (total_current_value perf) now] ∧
    ∀ pid', pid' ≠ pid →
      query_snapshots
        (save_portfolio_snapshot get_current_price now st pid).1.2 pid'
      = query_snapshots st pid'.
Proof.
  intros He Hdates.
  destruct (save_portfolio_snapshot_cases get_current_price now st pid)
    as [[Hno _]|[_ (perf & Hperf & ->)]]; [done|].
  exists perf. split; [done|]. unfold query_snapshots. simpl. split.
  - rewrite filter_app, (filter_singleton_True _ _ []) by done.
    rewrite reverse_app. simpl. apply insert_snapshot_last.
    intros u [Hpid Hu]%order_snapshots_elem%elem_of_reverse%list_elem_of_filter.
    simpl. by apply Hdates.
  - intros pid' Hne.
    rewrite filter_app, (filter_singleton_False _ _ []) by (simpl; congruence).
    by rewrite app_nil_r.
Qed.

(** A third snapshot, at time 30, after those of times 10 and 20. *)
Lemma snapshot_listed_witness :
  ∃ perf,
    (get_portfolio_performance sample_price sample_snapshots 1).1
      = Some perf ∧
    query_snapshots
      (save_portfolio_snapshot sample_price 30 sample_snapshots 1).1.2 1
    = query_snapshots sample_snapshots 1 ++
        [mkPortfolioSnapshot
           (next_key (snapshot_key <$> snapshots sample_snapshots)) 1
           (total_current_value perf) 30] ∧
    ∀ pid', pid' ≠ 1 →
      query_snapshots
        (save_portfolio_snapshot sample_price 30 sample_snapshots 1).1.2 pid'
      = query_snapshots sample_snapshots pid'.
Proof.
  apply (snapshot_listed sample_price 30 sample_snapshots 1).
  - unfold portfolio_exists. vm_compute. left.
  - assert (Forall (λ s, (snapshot_date s ≤ 30)%Z)
              (snapshots sample_snapshots)) as Hall
      by (apply (bool_decide_unpack _); vm_compute; exact I).
    rewrite Forall_forall in Hall. intros s Hin _. by apply Hall.
Defined.

Example sample_snapshots_listed :
  (λ s, (snapshot_key s, snapshot_date s))
    <$> query_snapshots sample_snapshots 1 = [(1, 10); (2, 20)].
Proof. vm_compute. reflexivity. Qed.

Lemma add_transaction_succeeds_iff_witness :
  (add_transaction 1 "AAPL" "hold" (qc 10) (qc 150) 5 no_notes
     sample_store).1.2 = sample_store.
Proof.
  apply (add_transaction_succeeds_iff 1 "AAPL" "hold" (qc 10) (qc 150) 5
           no_notes sample_store).
  reflexivity.
Defined.

Lemma snapshot_saved_witness :
  ∃ st', (save_portfolio_snapshot sample_price 77 sample_store 1).1
         = (true, st') ∧
         transactions st' = transactions sample_store.
Proof.
  destruct (snapshot_saved sample_price 77 sample_store 1)
    as (ok & st' & Heq & Hok & _ & _ & Htx).
  exists st'. split; [|done]. rewrite Heq. f_equal. apply Hok.
  unfold portfolio_exists. vm_compute. left.
Defined.

(** ** The latest transaction *)

Lemma insert_by_date_last t l :
  (∀ u, u ∈ l → (transaction_date u ≤ transaction_date t)%Z) →
  insert_by_date t l = l ++ [t].
Proof.
  induction l as [|u l IH]; intros Hle; simpl; [done|].
  pose proof (Hle u ltac:(left)) as Hu.
  rewrite decide_False by lia.
  rewrite IH; [done|]. intros u' Hu'. apply Hle. by right.
Qed.

Lemma order_by_date_snoc l t :
  (∀ u, u ∈ l → (transaction_date u ≤ transaction_date t)%Z) →
  order_by_date (l ++ [t]) = order_by_date l ++ [t].
Proof.
  intros Hle. unfold order_by_date. rewrite reverse_app. simpl.
  apply insert_by_date_last. intros u Hu. apply Hle.
  assert (u ∈ order_by_date l) as Hin by done.
  by rewrite order_by_date_perm in Hin.
Qed.

Lemma process_transactions_snoc l h txn :
  (process_transactions h (l ++ [txn])).1
  = (process_transaction (process_transactions h l).1 txn).1.
Proof.
  revert h. induction l as [|t l IH]; intros h; simpl; out_simpl; [done|].
  apply IH.
Qed.

(** X22. A transaction accepted by [add_transaction] with a date not
    earlier than those of the transactions of the portfolio is read last:
    the accumulator at the end of the loop of [get_portfolio_holdings] is
    the one of before the addition, after one more step of the loop on the
    new transaction. *)
Theorem add_latest_transaction (pid : Z) (ticker transaction_type : string)
    (shares price_per_share : Qc) (date : Z) (notes : string)
    (st : Store) :
  lower transaction_type ∈ ["buy"; "sell"] →
  (0 < shares)%Qc → (0 < price_per_share)%Qc →
  portfolio_exists st pid →
  (∀ t, t ∈ transactions st → portfolio_id t = pid →
        (transaction_date t ≤ date)%Z) →
  final_holdings
    (add_transaction pid ticker transaction_type shares price_per_share
       date notes st).1.2 pid
  = (process_transaction (final_holdings st pid)
       (mkTransaction (next_key (transaction_key <$> transactions st)) pid
          (upper ticker) (lower transaction_type) shares price_per_share
          date notes)).1.
Proof.
  intros Hty Hs Hp He Hdates. rewrite add_transaction_ok by done.
  unfold final_holdings, query_transactions. simpl.
  rewrite filter_app, (filter_singleton_True _ _ []) by done.
  rewrite order_by_date_snoc.
  - apply process_transactions_snoc.
  - intros u [Hpid Hu]%list_elem_of_filter. simpl. by apply Hdates.
Qed.

(** The sample, then a buy of 3 MSFT dated after everything. *)
Lemma add_latest_transaction_witness :
  final_holdings
    (add_transaction 1 "msft" "buy" (qc 3) (qc 400) 20 no_notes
       sample_store).1.2 1
  = (process_transaction (final_holdings sample_store 1)
       (mkTransaction (next_key (transaction_key <$> transactions sample_store))
          1 "MSFT" "buy" (qc 3) (qc 400) 20 no_notes)).1.
Proof.
  apply (add_latest_transaction 1 "msft" "buy" (qc 3) (qc 400) 20 no_notes
           sample_store).
  - left.
  - vm_compute. reflexivity.
  - vm_compute. reflexivity.
  - unfold portfolio_exists. vm_compute. left.
  - intros t Hin _.
    change (transactions sample_store) with
      [mkTransaction 1 1 "AAPL" "buy" (qc 10) (qc 150) 5 no_notes;
       mkTransaction 2 1 "AAPL" "buy" (qc 5) (qc 160) 7 no_notes;
       mkTransaction 3 1 "MSFT" "buy" (qc 8) (qc 350) 6 no_notes;
       mkTransaction 4 1 "AAPL" "sell" (qc 4) (qc 320) 9 no_notes] in Hin.
    repeat (apply elem_of_cons in Hin as [->|Hin]; [simpl; lia|]).
    inversion Hin.
Defined.

(** ** The rows, whatever the transactions *)

Lemma dict_set_keys_subset h k v x :
  x ∈ (dict_set h k v).*1 → x = k ∨ x ∈ h.*1.
Proof.
  destruct (dict_get h k) as [p|] eqn:Hg.
  - rewrite dict_set_keys by done. by right.
  - rewrite dict_set_absent, fmap_app, elem_of_app by done. simpl.
    rewrite list_elem_of_singleton. tauto.
Qed.

Lemma ensure_position_keys_subset h k x :
  x ∈ (ensure_position h k).*1 → x = k ∨ x ∈ h.*1.
Proof.
  unfold ensure_position. destruct (dict_get h k); [by right|].
  apply dict_set_keys_subset.
Qed.

Lemma process_transaction_keys h txn x :
  x ∈ (process_transaction h txn).1.*1 → x = ticker txn ∨ x ∈ h.*1.
Proof.
  unfold process_transaction. repeat case_decide; out_simpl; intros Hx;
    repeat (apply dict_set_keys_subset in Hx as [?|Hx]; [by left|]);
    by apply ensure_position_keys_subset.
Qed.

Lemma process_transactions_keys txns h x :
  x ∈ (process_transactions h txns).1.*1 →
  x ∈ h.*1 ∨ ∃ txn, txn ∈ txns ∧ ticker txn = x.
Proof.
  revert h. induction txns as [|txn rest IH]; intros h; simpl; out_simpl.
  - by left.
  - intros [Hx|(t & Ht & Hx)]%IH.
    + apply process_transaction_keys in Hx as [->|Hx]; [|by left].
      right. exists txn. split; [left|done].
    + right. exists t. split; [by right|done].
Qed.

(** X23. Every row of a holdings frame has positive shares and, as average
    cost basis, its total cost over its shares; its ticker is the ticker of
    a transaction of the portfolio, and no two rows have the same
    ticker. *)
Theorem holdings_rows_invariant (st : Store) (pid : Z)
    (df : DataFrame HoldingRow) :
  (get_portfolio_holdings st pid).1 = Some df →
  NoDup (row_ticker <$> rows df) ∧
  ∀ r, r ∈ rows df →
    (0 < row_total_shares r)%Qc ∧
    row_avg_cost_basis r = (row_total_cost r / row_total_shares r)%Qc ∧
    ∃ txn, txn ∈ transactions st ∧ portfolio_id txn = pid ∧
           ticker txn = row_ticker r.
Proof.
  intros Hdf.
  assert (portfolio_exists st pid) as He.
  { destruct (decide (portfolio_exists st pid)) as [|Hno]; [done|].
    by rewrite get_portfolio_holdings_None in Hdf. }
  destruct (get_portfolio_holdings_found st pid He) as (df' & Hdf' & Hrows).
  rewrite Hdf in Hdf'. injection Hdf' as <-. rewrite Hrows.
  pose proof (final_holdings_NoDup st pid) as Hnd.
  split; [by apply holding_rows_NoDup|]. intros r Hr.
  assert (row_ticker r ∈ (final_holdings st pid).*1) as Hkey.
  { apply holding_rows_keys, list_elem_of_fmap. by exists r. }
  apply holding_rows_elem in Hr as [Hpos Hr]; [|done]. simpl in Hr.
  split_and!.
  - by rewrite Hr.
  - by rewrite Hr.
  - apply process_transactions_keys in Hkey as [Hkey|(txn & Hin & Ht)].
    + inversion Hkey.
    + apply query_transactions_elem in Hin as [Hin Hp]. by exists txn.
Qed.

Lemma holdings_rows_invariant_witness :
  NoDup (row_ticker <$> rows sample_frame) ∧
  ∀ r, r ∈ rows sample_frame →
    (0 < row_total_shares r)%Qc ∧
    row_avg_cost_basis r = (row_total_cost r / row_total_shares r)%Qc ∧
    ∃ txn, txn ∈ transactions sample_store ∧ portfolio_id txn = 1 ∧
           ticker txn = row_ticker r.
Proof.
  apply (holdings_rows_invariant sample_store 1 sample_frame).
  vm_compute. reflexivity.
Defined.

(** * The accountant on doubles *)

Module DoubleFacts.

Import Double.

Local Open Scope float_scope.

Ltac out_simpl_double :=
  unfold mbind, mret, Double.out_bind, Double.out_ret, Double.print in *;
  simpl in *.

(** ** The store *)

Lemma query_portfolio_None_double st pid :
  query_portfolio st pid = None ↔ ¬ portfolio_exists st pid.
Proof.
  unfold query_portfolio, portfolio_exists.
  induction (portfolios st) as [|p l IH]; simpl.
  - split; [intros _ H; inversion H | done].
  - rewrite filter_cons. case_decide as Hp; simpl.
    + split; [done | intros H; destruct H; subst; left].
    + rewrite IH. split.
      * intros Hn Hin. apply elem_of_cons in Hin as [->|Hin]; auto.
      * intros Hn Hin. apply Hn. by right.
Qed.

Lemma query_portfolio_Some_double st pid :
  portfolio_exists st pid → ∃ p, query_portfolio st pid = Some p.
Proof.
  intros He. destruct (query_portfolio st pid) as [p|] eqn:Hq; [eauto|].
  by apply query_portfolio_None_double in Hq.
Qed.

(** ** The [holdings] dict *)

Lemma dict_get_set_eq_double h k v : dict_get (dict_set h k v) k = Some v.
Proof.
  induction h as [|[k' v'] h IH]; simpl.
  - by rewrite decide_True.
  - case_decide as Hk; simpl; [by rewrite decide_True|].
    by rewrite decide_False.
Qed.

Lemma dict_get_set_ne_double h k k' v :
  k ≠ k' → dict_get (dict_set h k v) k' = dict_get h k'.
Proof.
  intros Hne. induction h as [|[k0 v0] h IH]; simpl.
  - by rewrite decide_False.
  - case_decide as Hk; simpl.
    + subst k0. by rewrite !decide_False.
    + case_decide; [done | apply IH].
Qed.

Lemma dict_set_absent_double h k v :
  dict_get h k = None → dict_set h k v = h ++ [(k, v)].
Proof.
  induction h as [|[k' v'] h IH]; simpl; [done|].
  case_decide; [done|]. intros Hg. by rewrite IH.
Qed.

Lemma dict_set_keys_double h k v :
  is_Some (dict_get h k) → (dict_set h k v).*1 = h.*1.
Proof.
  induction h as [|[k' v'] h IH]; csimpl.
  - intros [? ?]; done.
  - case_decide; csimpl; [done|]. intros Hs. by rewrite IH.
Qed.

Lemma dict_get_None_double h k : dict_get h k = None ↔ k ∉ h.*1.
Proof.
  induction h as [|[k' v'] h IH]; csimpl.
  - split; [intros _ H; inversion H | done].
  - rewrite not_elem_of_cons. case_decide as Hk.
    + split; [done | by intros [? _]].
    + rewrite IH. split; [done | by intros [_ ?]].
Qed.

Lemma dict_set_NoDup_double h k v : NoDup h.*1 → NoDup (dict_set h k v).*1.
Proof.
  intros Hnd. destruct (dict_get h k) as [p|] eqn:Hg.
  - by rewrite dict_set_keys_double.
  - rewrite dict_set_absent_double, fmap_app by done. csimpl.
    apply NoDup_app. split_and!; [done| |apply NoDup_singleton].
    intros x Hx Hx'. apply list_elem_of_singleton in Hx' as ->.
    by apply dict_get_None_double in Hg.
Qed.

Lemma dict_get_elem_double h k v :
  NoDup h.*1 → (k, v) ∈ h ↔ dict_get h k = Some v.
Proof.
  induction h as [|[k' v'] h IH]; csimpl; intros Hnd.
  - split; [intros H; inversion H | done].
  - apply NoDup_cons in Hnd as [Hk Hnd]. rewrite elem_of_cons.
    case_decide as He.
    + subst k'. split; [|intros [= ->]; by left].
      intros [[= ->]|Hin]; [done|].
      destruct Hk. apply list_elem_of_fmap. by exists (k, v).
    + rewrite IH by done. split; [|by right].
      intros [[= ? ?]|Hin]; done.
Qed.

Lemma position_of_set_eq_double h k v : position_of (dict_set h k v) k = v.
Proof. unfold position_of. by rewrite dict_get_set_eq_double. Qed.

Lemma position_of_set_ne_double h k k' v :
  k ≠ k' → position_of (dict_set h k v) k' = position_of h k'.
Proof. intros. unfold position_of. by rewrite dict_get_set_ne_double. Qed.

Lemma position_of_ensure_double h k k' :
  position_of (ensure_position h k) k' = position_of h k'.
Proof.
  unfold ensure_position. destruct (dict_get h k) eqn:Hg; [done|].
  destruct (decide (k = k')) as [<-|Hne].
  - rewrite position_of_set_eq_double. unfold position_of. by rewrite Hg.
  - by apply position_of_set_ne_double.
Qed.

Lemma ensure_position_NoDup_double h k :
  NoDup h.*1 → NoDup (ensure_position h k).*1.
Proof.
  unfold ensure_position. destruct (dict_get h k); [done|].
  apply dict_set_NoDup_double.
Qed.

(** ** One transaction *)

Lemma process_transaction_own_double h txn :
  position_of (process_transaction h txn).1 (ticker txn)
  = update_position (position_of h (ticker txn)) txn.
Proof.
  unfold process_transaction, update_position.
  rewrite position_of_ensure_double.
  repeat case_decide; [| destruct (0 <? _) |]; out_simpl_double;
    rewrite ?position_of_set_eq_double, ?position_of_ensure_double; done.
Qed.

Lemma process_transaction_other_double h txn k :
  ticker txn ≠ k →
  position_of (process_transaction h txn).1 k = position_of h k.
Proof.
  intros Hne. unfold process_transaction.
  repeat case_decide; [| destruct (0 <? _) |]; out_simpl_double;
    rewrite ?position_of_set_ne_double by done;
    apply position_of_ensure_double.
Qed.

Lemma process_transaction_NoDup_double h txn :
  NoDup h.*1 → NoDup (process_transaction h txn).1.*1.
Proof.
  intros Hnd. unfold process_transaction.
  repeat case_decide; [| destruct (0 <? _) |]; out_simpl_double;
    auto using dict_set_NoDup_double, ensure_position_NoDup_double.
Qed.

Lemma process_transactions_NoDup_double txns h :
  NoDup h.*1 → NoDup (process_transactions h txns).1.*1.
Proof.
  revert h. induction txns as [|txn rest IH]; intros h Hnd; [done|].
  simpl. out_simpl_double. apply IH. by apply process_transaction_NoDup_double.
Qed.

Lemma process_transactions_position_double txns h k :
  position_of (process_transactions h txns).1 k
  = foldl update_position (position_of h k)
      (filter (λ txn, ticker txn = k) txns).
Proof.
  revert h. induction txns as [|txn rest IH]; intros h; [done|].
  simpl. out_simpl_double. rewrite IH, filter_cons. case_decide as Hk.
  - subst k. simpl. by rewrite process_transaction_own_double.
  - by rewrite process_transaction_other_double.
Qed.

(** ** The rows of the holdings frame *)

Lemma holding_record_Some_double k v r :
  holding_record (k, v) = Some r ↔
  (0 <? total_shares v) = true ∧
  r = mkHoldingRow k (total_shares v) (total_cost v / total_shares v)
        (total_cost v).
Proof.
  unfold holding_record. destruct (0 <? total_shares v).
  - split; [intros [= <-]; done | intros [_ ->]; done].
  - split; [done | intros [? _]; done].
Qed.

Lemma position_of_positive_double h k :
  (0 <? total_shares (position_of h k)) = true →
  dict_get h k = Some (position_of h k).
Proof.
  unfold position_of. destruct (dict_get h k); [done|].
  simpl. vm_compute. discriminate.
Qed.

Lemma holding_rows_elem_double h r :
  NoDup h.*1 →
  r ∈ omap holding_record h ↔
  let p := position_of h (row_ticker r) in
  (0 <? total_shares p) = true ∧
  r = mkHoldingRow (row_ticker r) (total_shares p)
        (total_cost p / total_shares p) (total_cost p).
Proof.
  intros Hnd. rewrite list_elem_of_omap. split.
  - intros [[k v] [Hin Hrec]].
    apply holding_record_Some_double in Hrec as [Hpos ->]. simpl.
    apply dict_get_elem_double in Hin; [|done].
    unfold position_of. rewrite Hin. done.
  - simpl. intros [Hpos Hr].
    exists (row_ticker r, position_of h (row_ticker r)). split.
    + apply dict_get_elem_double; [done|].
      by apply position_of_positive_double.
    + by apply holding_record_Some_double.
Qed.

Lemma final_holdings_NoDup_double st pid : NoDup (final_holdings st pid).*1.
Proof. apply process_transactions_NoDup_double. constructor. Qed.

Lemma get_portfolio_holdings_found_double st pid :
  portfolio_exists st pid →
  ∃ df, (get_portfolio_holdings st pid).1 = Some df ∧
        rows df = omap holding_record (final_holdings st pid).
Proof.
  intros [p Hp]%query_portfolio_Some_double.
  unfold get_portfolio_holdings, final_holdings. rewrite Hp.
  destruct (query_transactions st pid) as [|txn rest].
  - by eexists.
  - eexists. split; [done|]. apply rows_from_records.
Qed.

(** ** Buys only *)

Lemma foldl_update_position_buys_double l p :
  (∀ txn, txn ∈ l → transaction_type txn = "buy") →
  foldl update_position p l
  = mkPosition
      (foldl (λ a txn, a + shares txn) (total_shares p) l)
      (foldl (λ a txn, a + shares txn * price_per_share txn)
         (total_cost p) l).
Proof.
  revert p. induction l as [|txn l IH]; intros p Hbuy; simpl.
  - by destruct p.
  - rewrite IH by (intros; apply Hbuy; by right).
    unfold update_position. by rewrite decide_True by (apply Hbuy; left).
Qed.

(** C3. When every transaction of the portfolio for a ticker is a buy, a
    row of the holdings frame for that ticker has: total shares, the sum of
    the quantities; total cost, the sum of quantity times price; average
    cost basis, total cost over total shares. The sums are those the loop
    makes on doubles, from 0 and in the order the transactions are read.
    There is such a row as soon as the sum of the quantities is positive. *)
Theorem holdings_of_buys (st : Store) (pid : Z) (t : string) :
  portfolio_exists st pid →
  (∀ txn, txn ∈ query_transactions st pid → ticker txn = t →
          transaction_type txn = "buy") →
  let buys := filter (λ txn, ticker txn = t) (query_transactions st pid) in
  ∃ df, (get_portfolio_holdings st pid).1 = Some df ∧
    (∀ r, r ∈ rows df → row_ticker r = t →
       row_total_shares r = running_shares buys ∧
       row_total_cost r = running_cost buys ∧
       row_avg_cost_basis r = row_total_cost r / row_total_shares r) ∧
    ((0 <? running_shares buys) = true →
       mkHoldingRow t (running_shares buys)
         (running_cost buys / running_shares buys) (running_cost buys)
       ∈ rows df).
Proof.
  intros He Hbuy buys.
  destruct (get_portfolio_holdings_found_double st pid He)
    as [df [Hdf Hrows]].
  exists df. split; [done|]. rewrite Hrows.
  assert (position_of (final_holdings st pid) t
          = mkPosition (running_shares buys) (running_cost buys)) as Hpos.
  { unfold final_holdings. rewrite process_transactions_position_double.
    fold buys. rewrite foldl_update_position_buys_double; [done|].
    intros txn [Ht Hin]%list_elem_of_filter. by apply Hbuy. }
  split.
  - intros r Hr Ht.
    apply holding_rows_elem_double in Hr as [_ Hr];
      [|apply final_holdings_NoDup_double].
    rewrite Ht, Hpos in Hr. simpl in Hr. by rewrite Hr.
  - intros Hq. apply holding_rows_elem_double;
      [apply final_holdings_NoDup_double|].
    simpl. by rewrite Hpos.
Qed.

(** Two buys of AAPL, 10 at 150 and 5 at 160, around a buy of MSFT. *)
Lemma holdings_of_buys_witness :
  let buys := [mkTransaction 1 1 "AAPL" "buy" 10 150 5 no_notes;
               mkTransaction 2 1 "AAPL" "buy" 5 160 7 no_notes] in
  ∃ df, (get_portfolio_holdings sample_buys 1).1 = Some df ∧
    (∀ r, r ∈ rows df → row_ticker r = "AAPL" →
       row_total_shares r = running_shares buys ∧
       row_total_cost r = running_cost buys ∧
       row_avg_cost_basis r = row_total_cost r / row_total_shares r) ∧
    ((0 <? running_shares buys) = true →
       mkHoldingRow "AAPL" (running_shares buys)
         (running_cost buys / running_shares buys) (running_cost buys)
       ∈ rows df).
Proof.
  apply (holdings_of_buys sample_buys 1 "AAPL").
  - unfold portfolio_exists. simpl. left.
  - intros txn Hin Ht.
    change (query_transactions sample_buys 1) with
      [mkTransaction 1 1 "AAPL" "buy" 10 150 5 no_notes;
       mkTransaction 3 1 "MSFT" "buy" 8 350 6 no_notes;
       mkTransaction 2 1 "AAPL" "buy" 5 160 7 no_notes] in Hin.
    repeat (apply elem_of_cons in Hin as [->|Hin]; [done|]).
    inversion Hin.
Defined.

(** The sums of the sample: 15 shares, cost 2300, average
    153.33333333333334. *)
Example sample_buys_rows :
  (λ df, (λ r, (row_ticker r, row_total_shares r, row_avg_cost_basis r,
                row_total_cost r)) <$> rows df)
    <$> (get_portfolio_holdings sample_buys 1).1
  = Some [("AAPL", 15, 2300 / 15, 2300); ("MSFT", 8, 350, 2800)].
Proof. vm_compute. reflexivity. Qed.

(** ** Selling *)


End DoubleFacts.

(** * Selling, on doubles and in exact arithmetic *)




(** The sell of the sample, on doubles: 11 shares at cost
    1686.6666666666665. *)
Example sample_sell_result :
  (λ p, (Double.total_shares p, Double.total_cost p))
    (Double.position_of
       (Double.process_transaction Double.sample_holdings
          Double.sample_sell).1 "AAPL")
  = (11, (2300 - 4 * (2300 / 15)))%float.
Proof. vm_compute. reflexivity. Qed.
